(** * fonti-registry: the registry builder of [registry.py]

    A shallow embedding of the four functions of [registry.py]
    ([get_html_path], [extract_github_link], [get_metadata_entries], [main])
    and the properties of its specification.

    - Python [str] values are lists of Unicode code points.
    - The file system ([Path.exists], [Path.is_dir], [Path.iterdir], [open]),
      the HTML parser ([BeautifulSoup(..., "html.parser")]) and the console
      ([console.print], which reads its argument as markup) are the
      environment of the program: they are parameters of the development,
      and each of them may raise.
    - Exceptions are explicit: an expression evaluates to [Val v] or
      [Raise e]; a block that mutates a dictionary before raising returns
      the dictionary together with the pending exception. *)

From Stdlib Require Import NArith String Ascii List Bool Lia.
From stdpp Require Import base option list gmap.

Set Default Proof Using "Type".

(* ===================================================================== *)
(** ** Python strings *)
(* ===================================================================== *)

(** A [str] is a sequence of code points. *)
Abbreviation str := (list N).

(** String literals of the source, written as Rocq strings. *)
Fixpoint lit (s : string) : str :=
  match s with
  | EmptyString => []
  | String a r => N_of_ascii a :: lit r
  end.

Arguments lit s%_string : simpl never.

Definition colon : N := 58.
Definition dquote : N := 34.

(** [s.startswith(prefix)] *)
Fixpoint startswith (s prefix : str) {struct prefix} : bool :=
  match prefix, s with
  | [], _ => true
  | _ :: _, [] => false
  | p :: prefix', c :: s' => (c =? p)%N && startswith s' prefix'
  end.

(** [needle in hay] on strings: [needle] occurs as a substring. *)
Fixpoint str_in (needle hay : str) : bool :=
  startswith hay needle ||
  match hay with
  | [] => false
  | _ :: hay' => str_in needle hay'
  end.

(** [s.split(sep, 1)] for a one-character separator: the text before the
    first [sep] and the text after it, or [s] alone when [sep] is absent. *)
Fixpoint split1 (sep : N) (s : str) : list str :=
  match s with
  | [] => [[]]
  | c :: s' =>
      if (c =? sep)%N then [[]; s']
      else match split1 sep s' with
           | head :: tail => (c :: head) :: tail
           | [] => [[c]]
           end
  end.

(** [str.isspace] on one code point: the characters [str.strip()] removes. *)
Definition isspace (c : N) : bool :=
  ((9 <=? c) && (c <=? 13) || (28 <=? c) && (c <=? 32)
   || (c =? 133) || (c =? 160) || (c =? 5760)
   || (8192 <=? c) && (c <=? 8202)
   || (c =? 8232) || (c =? 8233) || (c =? 8239) || (c =? 8287)
   || (c =? 12288))%N.

(** [s.lstrip], [s.rstrip] and [s.strip] for a set of characters given by
    its membership test: every leading and every trailing character of
    the set is removed. *)
Fixpoint lstrip_by (drop : N -> bool) (s : str) : str :=
  match s with
  | [] => []
  | c :: s' => if drop c then lstrip_by drop s' else s
  end.

Definition rstrip_by (drop : N -> bool) (s : str) : str :=
  reverse (lstrip_by drop (reverse s)).

Definition strip_by (drop : N -> bool) (s : str) : str :=
  rstrip_by drop (lstrip_by drop s).

(** [s.strip()] *)
Definition strip (s : str) : str := strip_by isspace s.

(** [s.strip(chars)] *)
Definition strip_chars (chars : str) (s : str) : str :=
  strip_by (fun c => existsb (N.eqb c) chars) s.

(* ===================================================================== *)
(** ** Exceptions *)
(* ===================================================================== *)

(** The subclasses of [Exception] the program can meet. *)
Inductive exn : Type :=
| OSError
| UnicodeDecodeError
| IndexError
| KeyError
| ParserRejectedMarkup
| MarkupError.

Inductive outcome (A : Type) : Type :=
| Val (a : A)
| Raise (e : exn).
Arguments Val {A} a.
Arguments Raise {A} e.

#[global] Instance exn_eq_dec : EqDecision exn.
Proof. solve_decision. Defined.

#[global] Instance outcome_eq_dec {A : Type} `{EqDecision A} : EqDecision (outcome A).
Proof. solve_decision. Defined.

#[global] Instance outcome_ret : MRet outcome := fun A a => Val a.

#[global] Instance outcome_bind : MBind outcome := fun A B k m =>
  match m with
  | Val a => k a
  | Raise e => Raise e
  end.

(** [l[i]] on a list. *)
Definition index {A : Type} (l : list A) (i : nat) : outcome A :=
  match l !! i with
  | Some a => Val a
  | None => Raise IndexError
  end.

(** A [for] loop whose body threads a state and may raise. *)
Fixpoint for_each {A S : Type} (body : A -> S -> outcome S)
    (l : list A) (s : S) : outcome S :=
  match l with
  | [] => Val s
  | x :: rest => s' ← body x s; for_each body rest s'
  end.

(* ===================================================================== *)
(** ** The environment: files and directories *)
(* ===================================================================== *)

(** What iterating over an open text file yields: lines, then the end of
    the file or an exception. [Broken e] at the head is an [open] that
    raises. *)
Inductive file_iter : Type :=
| Eof
| Line (line : str) (rest : file_iter)
| Broken (e : exn).

(** The file that yields the lines [ls] and then behaves as [tail]. *)
Definition file_of (ls : list str) (tail : file_iter) : file_iter :=
  foldr Line tail ls.

(** [f.read()]: the whole text, or the exception met on the way. *)
Fixpoint read (f : file_iter) : outcome str :=
  match f with
  | Eof => Val []
  | Line line rest => text ← read rest; Val (line ++ text)
  | Broken e => Raise e
  end.

(** [pathlib.Path] and the file-system calls of the program.
    [here] is [Path(__file__).parent]. [Path.exists] and [Path.is_dir]
    answer [False] for a missing file but let other errors of the
    underlying [stat] through, so they may raise as well. *)
Class FileSystem : Type := {
  Path : Type;
  here : Path;
  joinpath : Path -> str -> Path;
  name : Path -> str;
  exists_ : Path -> outcome bool;
  is_dir : Path -> outcome bool;
  iterdir : Path -> outcome (list Path);
  open_ : Path -> file_iter;
}.

Notation "p // s" := (joinpath p s) (at level 40, left associativity).

(* ===================================================================== *)
(** ** The parsed HTML document *)
(* ===================================================================== *)

(** A BeautifulSoup tree: text nodes and tags with their attribute
    dictionary. The [BeautifulSoup] object itself is the root tag. *)
#[warnings="-register-all"] Inductive node : Type :=
| NavigableString (text : str)
| Tag (tag_name : str) (attrs : gmap str str) (contents : list node).

(** [tag.descendants]: every node below [n], in document order. *)
Fixpoint descendants (n : node) : list node :=
  match n with
  | NavigableString _ => []
  | Tag _ _ contents =>
      (fix walk (l : list node) : list node :=
         match l with
         | [] => []
         | c :: rest => c :: descendants c ++ walk rest
         end) contents
  end.

(** The test of [find_all("a", href=True)] on one node. *)
Definition is_a_with_href (n : node) : bool :=
  match n with
  | NavigableString _ => false
  | Tag tag_name attrs _ =>
      bool_decide (tag_name = lit "a") && bool_decide (is_Some (attrs !! lit "href"))
  end.

(** [soup.find_all("a", href=True)] *)
Definition find_all_a_href (soup : node) : list node :=
  List.filter is_a_with_href (descendants soup).

(** [tag[key]] *)
Definition getitem (tag : node) (key : str) : outcome str :=
  match tag with
  | NavigableString _ => Raise KeyError
  | Tag _ attrs _ =>
      match attrs !! key with
      | Some v => Val v
      | None => Raise KeyError
      end
  end.

(* ===================================================================== *)
(** ** The program *)
(* ===================================================================== *)

Section Registry.

Context {fs : FileSystem}.

(** [BeautifulSoup(html_content, "html.parser")]: the parsed document, or
    the exception of a parser that rejects the markup. *)
Variable BeautifulSoup : str -> outcome node.

(** [console.print(message)]: the message is read as console markup, and
    a message that is not well-formed markup raises. *)
Variable console_print : str -> outcome unit.

Definition BASE_PATH : Path := here // lit "google-fonts".
Definition DIRS : list str := [lit "ofl"; lit "apache"; lit "ufl"].

Definition get_html_path (dir_name font_name : str) : outcome (option Path) :=
  let article_path :=
    BASE_PATH // dir_name // font_name // lit "article" // lit "ARTICLE.en_us.html" in
  article_exists ← exists_ article_path;
  if (article_exists : bool) then Val (Some article_path)
  else
    let desc_path := BASE_PATH // dir_name // font_name // lit "DESCRIPTION.en_us.html" in
    desc_exists ← exists_ desc_path;
    if (desc_exists : bool) then Val (Some desc_path)
    else Val None.

(** The list comprehension
    [[link["href"] for link in links if "github.com" in link["href"]]]. *)
Fixpoint github_hrefs (links : list node) : outcome (list str) :=
  match links with
  | [] => Val []
  | link :: rest =>
      tested ← getitem link (lit "href");
      if str_in (lit "github.com") tested then
        href ← getitem link (lit "href");
        hrefs ← github_hrefs rest;
        Val (href :: hrefs)
      else github_hrefs rest
  end.

Definition extract_github_link (file_path : Path) : outcome (option str) :=
  html_content ← read (open_ file_path);
  soup ← BeautifulSoup html_content;
  let links := find_all_a_href soup in
  github_links ← github_hrefs links;
  match github_links with
  | first :: _ => Val (Some first)
  | [] => Val None
  end.

(** The value of a matching line: [line.split(":", 1)[1].strip()] with the
    double-quote character stripped from both ends by a second [strip]. *)
Definition field_value (line : str) : outcome str :=
  after ← index (split1 colon line) 1;
  Val (strip_chars [dquote] (strip after)).

(** The loop [for entry in entries] on one line, with its [break]. The
    dictionary is returned with the exception that interrupted the loop,
    if any. *)
Fixpoint scan_entries (line : str) (entries : list str) (values : gmap str str)
    : gmap str str * option exn :=
  match entries with
  | [] => (values, None)
  | entry :: rest =>
      if startswith line (entry ++ lit ":") then
        match field_value line with
        | Val value => (<[entry := value]> values, None)
        | Raise e => (values, Some e)
        end
      else scan_entries line rest values
  end.

(** The [with open(...) as f: for line in f: ...] block. *)
Fixpoint scan_lines (f : file_iter) (entries : list str) (values : gmap str str)
    : gmap str str * option exn :=
  match f with
  | Eof => (values, None)
  | Broken e => (values, Some e)
  | Line line rest =>
      match scan_entries line entries values with
      | (values', None) => scan_lines rest entries values'
      | (values', Some e) => (values', Some e)
      end
  end.

(** [values.get(entry, default)] with the empty string as default. *)
Definition get_or_empty (values : gmap str str) (entry : str) : str :=
  default [] (values !! entry).

(** The existence test stands before the [try]: what it raises is not
    caught. *)
Definition get_metadata_entries (metadata_path : Path) (entries : list str)
    : outcome (list str) :=
  metadata_exists ← exists_ metadata_path;
  if negb (metadata_exists : bool) then Val (replicate (length entries) [])
  else
    (* try: ... except Exception: pass *)
    let '(values, _) := scan_lines (open_ metadata_path) entries ∅ in
    Val (map (get_or_empty values) entries).

(** The dictionary literal of one font. *)
Definition font_entry (name_ display_name link : str) : gmap str str :=
  <[lit "link" := link]>
    (<[lit "display_name" := display_name]> (<[lit "name" := name_]> ∅)).

(** The progress line of one font, an f-string between [[green]] and
    [[/green]]. *)
Definition progress_line (font_name name_ display_name link : str) : str :=
  lit "[green]Processed " ++ font_name ++ lit ": name='" ++ name_ ++
  lit "', display_name='" ++ display_name ++ lit "', link='" ++ link ++
  lit "'[/green]".

(** The body of [for subdir in dir_path.iterdir()]. The entry is inserted
    before the progress line is printed; when the print raises, [main]
    ends with the exception and the dictionary is not written. *)
Definition main_subdir (dir_name : str) (subdir : Path)
    (font_data : gmap str (gmap str str)) : outcome (gmap str (gmap str str)) :=
  subdir_is_dir ← is_dir subdir;
  if negb (subdir_is_dir : bool) then Val font_data
  else
    let font_name := name subdir in
    html_path ← get_html_path dir_name font_name;
    link ← match (html_path : option Path) with
           | Some html_path =>
               extracted_link ← extract_github_link html_path;
               match (extracted_link : option str) with
               | Some (c :: l) => Val (c :: l)
               | _ => Val []
               end
           | None => Val []
           end;
    let metadata_path := subdir // lit "METADATA.pb" in
    values ← get_metadata_entries metadata_path [lit "name"; lit "display_name"];
    name_ ← index values 0;
    display_name ← index values 1;
    let font_data' := <[font_name := font_entry name_ display_name link]> font_data in
    _ ← console_print (progress_line font_name name_ display_name link);
    Val font_data'.

(** The body of [for dir_name in DIRS]. The warning printed for a skipped
    category, whose text is the path of the script and a constant of the
    program, is left out. *)
Definition main_dir (dir_name : str) (font_data : gmap str (gmap str str))
    : outcome (gmap str (gmap str str)) :=
  let dir_path := BASE_PATH // dir_name in
  dir_exists ← exists_ dir_path;
  if negb (dir_exists : bool) then Val font_data
  else
    subdirs ← iterdir dir_path;
    for_each (main_subdir dir_name) subdirs font_data.

(** [main], up to the dictionary handed to [json.dump]. The serialisation
    and the summary line printed after it are not part of the model. *)
Definition main : outcome (gmap str (gmap str str)) :=
  for_each main_dir DIRS ∅.

End Registry.

(* ===================================================================== *)
(** ** A file system given by a directory tree *)
(* ===================================================================== *)

Module TreeFS.

#[warnings="-register-all"] Inductive fsnode : Type :=
| RegularFile (content : file_iter)
| Directory (children : list (str * fsnode)).

(** The length of a name in bytes, as the file system counts it. *)
Definition utf8_length (s : str) : N :=
  foldr (fun c n =>
           ((if c <? 128 then 1 else if c <? 2048 then 2
             else if c <? 65536 then 3 else 4) + n)%N) 0%N s.

Definition NAME_MAX : N := 255.

(** Walking a path down the tree: the node reached, nothing when a
    component is missing or lies below a regular file, and [OSError] when
    a directory is asked for a name longer than [NAME_MAX] (the error
    [stat] reports as ENAMETOOLONG and [Path.exists] does not absorb). *)
Fixpoint resolve (p : list str) (n : fsnode) : outcome (option fsnode) :=
  match p with
  | [] => Val (Some n)
  | c :: p' =>
      match n with
      | RegularFile _ => Val None
      | Directory children =>
          if (NAME_MAX <? utf8_length c)%N then Raise OSError
          else match List.find (fun kv => bool_decide (fst kv = c)) children with
               | Some kv => resolve p' (snd kv)
               | None => Val None
               end
      end
  end.

(** Paths are lists of components below the root, which stands for the
    directory of the script. *)
Definition tree_fs (root : fsnode) : FileSystem := {|
  Path := list str;
  here := [];
  joinpath p s := p ++ [s];
  name p := List.last p [];
  exists_ p :=
    found ← resolve p root;
    Val (match (found : option fsnode) with Some _ => true | None => false end);
  is_dir p :=
    found ← resolve p root;
    Val (match (found : option fsnode) with Some (Directory _) => true | _ => false end);
  iterdir p :=
    found ← resolve p root;
    match (found : option fsnode) with
    | Some (Directory children) => Val (map (fun kv => p ++ [fst kv]) children)
    | _ => Raise OSError
    end;
  open_ p :=
    match resolve p root with
    | Val (Some (RegularFile content)) => content
    | Val _ => Broken OSError
    | Raise e => Broken e
    end;
|}.

(** A text file with the given lines. *)
Definition text (ls : list string) : fsnode :=
  RegularFile (file_of (map lit ls) Eof).

End TreeFS.

(* ===================================================================== *)
(** ** Vocabulary of the statements *)
(* ===================================================================== *)

(** The lines an open file yields before it ends or fails, and the
    exception it fails with, if any. *)
Fixpoint lines_of (f : file_iter) : list str :=
  match f with
  | Eof | Broken _ => []
  | Line line rest => line :: lines_of rest
  end.

Fixpoint failure_of (f : file_iter) : option exn :=
  match f with
  | Eof => None
  | Broken e => Some e
  | Line _ rest => failure_of rest
  end.

(** A line matches a requested field when it starts with the field name
    immediately followed by a colon. *)
Definition matches (line entry : str) : Prop :=
  startswith line (entry ++ lit ":") = true.

#[global] Instance matches_dec (line entry : str) : Decision (matches line entry) :=
  decide (startswith line (entry ++ lit ":") = true).

(** The field a line is assigned to: the first requested field, in request
    order, that the line matches. *)
Definition assigned_field (entries : list str) (line : str) : option str :=
  List.find (fun entry => startswith line (entry ++ lit ":")) entries.

(** The value a line carries, the empty string when it has no colon. *)
Definition line_value (line : str) : str :=
  match field_value line with
  | Val value => value
  | Raise _ => []
  end.

(** What one line does to the dictionary of recorded values. *)
Definition record_line (entries : list str) (values : gmap str str) (line : str)
    : gmap str str :=
  match assigned_field entries line with
  | Some entry => <[entry := line_value line]> values
  | None => values
  end.

(** The reader as the specification words it: for each requested field
    the first matching line of the file gives the value. *)
Definition first_match_values (entries : list str) (ls : list str) : list str :=
  map (fun entry =>
         match List.find (fun line => startswith line (entry ++ lit ":")) ls with
         | Some line => line_value line
         | None => []
         end) entries.

(** Quote stripping as the specification words it: one leading and one
    trailing double quote are removed, each when present. *)
Definition strip_one_quote_layer (s : str) : str :=
  let s1 := match s with
            | c :: r => if (c =? dquote)%N then r else s
            | [] => []
            end in
  match reverse s1 with
  | c :: r => if (c =? dquote)%N then reverse r else s1
  | [] => []
  end.

Definition one_layer_value (line : str) : str :=
  strip_one_quote_layer (strip (default [] (split1 colon line !! 1))).

(** [contains needle s]: [needle] is a substring of [s]. *)
Definition contains (needle s : str) : Prop :=
  ∃ a b, s = a ++ needle ++ b.

(** An anchor element whose hyperlink target is [href] and mentions
    github.com. *)
Definition github_anchor (n : node) (href : str) : Prop :=
  ∃ attrs contents,
    n = Tag (lit "a") attrs contents ∧ attrs !! lit "href" = Some href ∧
    contains (lit "github.com") href.

(** The anchor elements of a document, in document order. *)
Definition anchors (soup : node) : list node :=
  List.filter (fun n => match n with
                        | Tag tag_name _ _ => bool_decide (tag_name = lit "a")
                        | NavigableString _ => false
                        end) (descendants soup).

(** The hyperlink target of a node when it is an anchor that mentions
    github.com. *)
Definition github_href (n : node) : option str :=
  match n with
  | NavigableString _ => None
  | Tag tag_name attrs _ =>
      if bool_decide (tag_name = lit "a") then
        href ← attrs !! lit "href";
        if str_in (lit "github.com") href then Some href else None
      else None
  end.

(** The link [main] computes for one font directory. *)
Definition font_link {fs : FileSystem} (BeautifulSoup : str → outcome node)
    (dir_name font_name : str) : outcome str :=
  html_path ← get_html_path dir_name font_name;
  match (html_path : option Path) with
  | Some html_path =>
      extracted_link ← extract_github_link BeautifulSoup html_path;
      match (extracted_link : option str) with
      | Some (c :: l) => Val (c :: l)
      | _ => Val []
      end
  | None => Val []
  end.

(** The value the reader returns for one requested field, given the lines
    that count for it. *)
Definition last_value (ls : list str) : str :=
  match last ls with
  | Some line => line_value line
  | None => []
  end.

(** The three keys of a font entry. *)
Definition entry_keys : gset str :=
  {[ lit "name"; lit "display_name"; lit "link" ]}.

(** A link the registry may hold: empty, or mentioning github.com. *)
Definition link_ok (link : str) : Prop :=
  link = [] ∨ contains (lit "github.com") link.

(** A well-formed font entry: exactly the three keys, and a link that
    is empty or mentions github.com. *)
Definition entry_ok (entry : gmap str str) : Prop :=
  dom entry = entry_keys ∧
  ∃ link, entry !! lit "link" = Some link ∧ link_ok link.

Definition registry_ok (font_data : gmap str (gmap str str)) : Prop :=
  ∀ font entry, font_data !! font = Some entry → entry_ok entry.

(* ===================================================================== *)
(** ** A sample font tree *)
(* ===================================================================== *)

Module Sample.
Import TreeFS.

Definition newline : N := 10.

(** [key: "value"], with the line end. *)
Definition quoted_line (key value : string) : str :=
  lit key ++ lit ": " ++ [dquote] ++ lit value ++ [dquote; newline].

(** [<a href="target">label</a>] as text and as parsed element. *)
Definition anchor_text (target label : string) : str :=
  lit "<a href=" ++ [dquote] ++ lit target ++ [dquote] ++ lit ">" ++
  lit label ++ lit "</a>".

Definition anchor_tag (target label : string) : node :=
  Tag (lit "a") {[lit "href" := lit target]} [NavigableString (lit label)].

Definition description_html : str :=
  lit "<p>See " ++ anchor_text "https://example.com" "x" ++ lit " and " ++
  anchor_text "https://github.com/org/repo" "y" ++ lit "</p>" ++ [newline].

Definition description_soup : node :=
  Tag (lit "[document]") ∅
    [Tag (lit "p") ∅
       [NavigableString (lit "See ");
        anchor_tag "https://example.com" "x";
        NavigableString (lit " and ");
        anchor_tag "https://github.com/org/repo" "y"];
     NavigableString [newline]].

Definition article_html : str :=
  lit "<p>Read " ++ anchor_text "https://example.org/more" "more" ++ lit "</p>" ++
  [newline].

Definition article_soup : node :=
  Tag (lit "[document]") ∅
    [Tag (lit "p") ∅
       [NavigableString (lit "Read ");
        anchor_tag "https://example.org/more" "more"];
     NavigableString [newline]].

(** The parser on the two documents of the sample tree; it rejects a
    document that holds a marked section it cannot read. *)
Definition parser (html_content : str) : outcome node :=
  if bool_decide (html_content = description_html) then Val description_soup
  else if bool_decide (html_content = article_html) then Val article_soup
  else if str_in (lit "<![") html_content then Raise ParserRejectedMarkup
  else Val (Tag (lit "[document]") ∅ []).

(** A console for the sample trees: the only closing tag a progress line
    may hold is its own [[/green]]; a message with a second one is
    refused. *)
Fixpoint closing_tags (message : str) : nat :=
  match message with
  | [] => 0
  | _ :: rest =>
      (if startswith message (lit "[/") then 1 else 0) + closing_tags rest
  end.

Definition console (message : str) : outcome unit :=
  if Nat.leb (closing_tags message) 1 then Val tt else Raise MarkupError.

(** A name longer than the file system accepts. *)
Definition long_name : str := replicate 300 97%N.

Definition tree : fsnode :=
  Directory
    [(lit "google-fonts", Directory
       [(lit "ofl", Directory
          [(lit "foo", Directory
             [(lit "DESCRIPTION.en_us.html",
                 RegularFile (file_of [description_html] Eof));
              (lit "METADATA.pb",
                 RegularFile (file_of [quoted_line "name" "Foo";
                                       quoted_line "display_name" "Foo Display";
                                       quoted_line "name" "Foo Again"] Eof))]);
           (lit "bar", Directory []);
           (lit "README.md", RegularFile (file_of [lit "fonts"] Eof));
           (lit "baz", Directory
             [(lit "DESCRIPTION.en_us.html",
                 RegularFile (file_of [description_html] Eof))])]);
        (lit "apache", Directory
          [(lit "foo", Directory
             [(lit "article", Directory
                [(lit "ARTICLE.en_us.html",
                    RegularFile (file_of [article_html] Eof))]);
              (lit "DESCRIPTION.en_us.html",
                 RegularFile (file_of [description_html] Eof));
              (lit "METADATA.pb",
                 RegularFile (file_of [quoted_line "name" "Foo Apache"]
                                      (Broken UnicodeDecodeError)))])])])].

Definition fs : FileSystem := tree_fs tree.

Definition ofl_foo : list str := [lit "google-fonts"; lit "ofl"; lit "foo"].
Definition ofl_bar : list str := [lit "google-fonts"; lit "ofl"; lit "bar"].
Definition ofl_readme : list str := [lit "google-fonts"; lit "ofl"; lit "README.md"].
Definition ofl_baz : list str := [lit "google-fonts"; lit "ofl"; lit "baz"].
Definition apache_foo : list str := [lit "google-fonts"; lit "apache"; lit "foo"].
Definition metadata_of (font_dir : list str) : list str :=
  font_dir ++ [lit "METADATA.pb"].
Definition description_of (font_dir : list str) : list str :=
  font_dir ++ [lit "DESCRIPTION.en_us.html"].

(** A tree in which every category holds a font directory [foo]. *)
Definition named_font (font_name : string) : fsnode :=
  Directory
    [(lit "foo", Directory
       [(lit "METADATA.pb", RegularFile (file_of [quoted_line "name" font_name] Eof))])].

Definition crowded_tree : fsnode :=
  Directory
    [(lit "google-fonts", Directory
       [(lit "ofl", named_font "Foo OFL");
        (lit "apache", named_font "Foo Apache");
        (lit "ufl", named_font "Foo UFL")])].

Definition crowded_fs : FileSystem := tree_fs crowded_tree.

(** The registry [main] builds from the sample tree. *)
Definition registry : gmap str (gmap str str) :=
  <[lit "foo" := font_entry (lit "Foo Apache") [] []]>
    (<[lit "baz" := font_entry [] [] (lit "https://github.com/org/repo")]>
       (<[lit "bar" := font_entry [] [] []]> ∅)).

(** A line whose value is wrapped in two layers of quotes. *)
Definition doubly_quoted_line : str :=
  lit "name: " ++ [dquote; dquote] ++ lit "Fira" ++ [dquote; dquote; newline].

End Sample.

(* ===================================================================== *)
(** ** More sample trees *)
(* ===================================================================== *)

Module MoreSamples.
Import TreeFS.

(** A tree with a metadata file that cannot be opened. *)
Definition locked_tree : fsnode :=
  Directory
    [(lit "google-fonts", Directory
       [(lit "ofl", Directory
          [(lit "locked", Directory
             [(lit "METADATA.pb", RegularFile (Broken OSError))])])])].

Definition locked_fs : FileSystem := tree_fs locked_tree.
Definition ofl_locked : list str := [lit "google-fonts"; lit "ofl"; lit "locked"].

(** A tree whose font has a closing tag in its name. *)
Definition markup_tree : fsnode :=
  Directory
    [(lit "google-fonts", Directory
       [(lit "ofl", Directory
          [(lit "foo", Directory
             [(lit "METADATA.pb",
                 RegularFile (file_of [Sample.quoted_line "name" "Foo [/bar]"] Eof))])])])].

Definition markup_fs : FileSystem := tree_fs markup_tree.

(** A tree whose second font directory has a description file that cannot
    be decoded. *)
Definition undecodable_tree : fsnode :=
  Directory
    [(lit "google-fonts", Directory
       [(lit "ofl", Directory
          [(lit "ok", Directory []);
           (lit "bad", Directory
             [(lit "DESCRIPTION.en_us.html",
                 RegularFile (file_of [lit "<p>"] (Broken UnicodeDecodeError)))])]);
        (lit "apache", Directory [(lit "later", Directory [])])])].

Definition undecodable_fs : FileSystem := tree_fs undecodable_tree.

(** The same tree with a description file the parser rejects. *)
Definition rejected_tree : fsnode :=
  Directory
    [(lit "google-fonts", Directory
       [(lit "ofl", Directory
          [(lit "ok", Directory []);
           (lit "bad", Directory
             [(lit "DESCRIPTION.en_us.html",
                 RegularFile (file_of [lit "<p>x</p><![x]>"] Eof))])])])].

Definition rejected_fs : FileSystem := tree_fs rejected_tree.
Definition ofl_ok : list str := [lit "google-fonts"; lit "ofl"; lit "ok"].
Definition ofl_bad : list str := [lit "google-fonts"; lit "ofl"; lit "bad"].

(** A tree in which the first category is a plain file. *)
Definition file_category_tree : fsnode :=
  Directory
    [(lit "google-fonts", Directory
       [(lit "ofl", RegularFile (file_of [lit "not a directory"] Eof));
        (lit "apache", Directory [(lit "later", Directory [])])])].

Definition file_category_fs : FileSystem := tree_fs file_category_tree.



(** Two metadata files: one with a nested block, one with the matching
    line alone. *)
Definition nested_lines : list str :=
  [Sample.quoted_line "name" "Roboto";
   lit "fonts {" ++ [Sample.newline];
   lit "  " ++ Sample.quoted_line "name" "Roboto Nested";
   lit "}" ++ [Sample.newline]].

Definition metadata_tree : fsnode :=
  Directory
    [(lit "google-fonts", Directory
       [(lit "ofl", Directory
          [(lit "full", Directory
             [(lit "METADATA.pb", RegularFile (file_of nested_lines Eof))]);
           (lit "short", Directory
             [(lit "METADATA.pb",
                 RegularFile (file_of [Sample.quoted_line "name" "Roboto"] Eof))])])])].

Definition metadata_fs : FileSystem := tree_fs metadata_tree.
Definition ofl_full : list str := [lit "google-fonts"; lit "ofl"; lit "full"].
Definition ofl_short : list str := [lit "google-fonts"; lit "ofl"; lit "short"].

(** The listing of the category [ofl] of the sample tree, and the registry
    the loop over it builds. *)
Definition ofl_listing : list (list str) :=
  [Sample.ofl_foo; Sample.ofl_bar; Sample.ofl_readme; Sample.ofl_baz].

Definition ofl_registry : gmap str (gmap str str) :=
  <[lit "foo" := font_entry (lit "Foo Again") (lit "Foo Display")
                            (lit "https://github.com/org/repo")]>
    (<[lit "baz" := font_entry [] [] (lit "https://github.com/org/repo")]>
       (<[lit "bar" := font_entry [] [] []]> ∅)).

End MoreSamples.

(* ===================================================================== *)
(** ** Properties *)
(* ===================================================================== *)

(** *** Strings *)

(** Literals are kept folded in the proofs; they are evaluated by
    [vm_compute] where a concrete value is needed. *)
Opaque lit.

Lemma startswith_app (p r : str) : startswith (p ++ r) p = true.
Proof.
  induction p as [|c p IH]; simpl; [done|].
  by rewrite N.eqb_refl, IH.
Qed.

Lemma startswith_inv (s p : str) :
  startswith s p = true → ∃ r, s = p ++ r.
Proof.
  revert s. induction p as [|c p IH]; intros s Hs; simpl in *.
  - by exists s.
  - destruct s as [|d s]; [done|].
    apply andb_true_iff in Hs as [Hc Hs]. apply N.eqb_eq in Hc as ->.
    destruct (IH _ Hs) as [r ->]. by exists r.
Qed.

Lemma startswith_iff (s p : str) :
  startswith s p = true ↔ ∃ r, s = p ++ r.
Proof.
  split; [apply startswith_inv|]. intros [r ->]. apply startswith_app.
Qed.

Lemma str_in_iff (needle hay : str) :
  str_in needle hay = true ↔ ∃ a b, hay = a ++ needle ++ b.
Proof.
  induction hay as [|c hay IH]; simpl.
  - rewrite orb_false_r, startswith_iff. split.
    + intros [r Hr]. by exists [], r.
    + intros (a & b & Hab). destruct a; simpl in *; [by exists b|done].
  - rewrite orb_true_iff, startswith_iff, IH. split.
    + intros [[r Hr]|(a & b & ->)]; [by exists [], r|by exists (c :: a), b].
    + intros (a & b & Hab). destruct a as [|a0 a]; simpl in *.
      * left. by exists b.
      * right. exists a, b. congruence.
Qed.

Lemma lit_colon : lit ":" = [colon].
Proof. by vm_compute. Qed.

Lemma str_in_nil_r (needle : str) : needle ≠ [] → str_in needle [] = false.
Proof. by destruct needle. Qed.

(** *** The Path Resolver *)

Section PathResolver.
Context {fs : FileSystem}.

(** C3 (amended): when [exists] answers, the article file is returned if
    it exists, else the description file if it exists, else nothing; when
    both exist the article file is selected. The resolver has no handler
    of its own: an exception raised by [exists] on a candidate it tests is
    raised by the resolver. *)
Theorem get_html_path_candidates (dir_name font_name : str) :
  let article_path :=
    BASE_PATH // dir_name // font_name // lit "article" // lit "ARTICLE.en_us.html" in
  let desc_path := BASE_PATH // dir_name // font_name // lit "DESCRIPTION.en_us.html" in
  (exists_ article_path = Val true →
     get_html_path dir_name font_name = Val (Some article_path)) ∧
  (exists_ article_path = Val false → exists_ desc_path = Val true →
     get_html_path dir_name font_name = Val (Some desc_path)) ∧
  (exists_ article_path = Val false → exists_ desc_path = Val false →
     get_html_path dir_name font_name = Val None) ∧
  (exists_ article_path = Val true → exists_ desc_path = Val true →
     get_html_path dir_name font_name = Val (Some article_path)) ∧
  (∀ e, exists_ article_path = Raise e →
     get_html_path dir_name font_name = Raise e) ∧
  (∀ e, exists_ article_path = Val false → exists_ desc_path = Raise e →
     get_html_path dir_name font_name = Raise e).
Proof.
  intros article_path desc_path. unfold get_html_path.
  fold article_path desc_path.
  split_and!; intros;
    repeat match goal with H : _ = _ |- _ => rewrite H end; done.
Qed.

End PathResolver.

(** *** The Metadata Reader *)

Lemma split1_at_first (sep : N) (before after : str) :
  sep ∉ before → split1 sep (before ++ sep :: after) = [before; after].
Proof.
  induction before as [|c before IH]; intros Hnot; simpl.
  - by rewrite N.eqb_refl.
  - apply not_elem_of_cons in Hnot as [Hc Hnot].
    destruct (N.eqb_spec c sep) as [->|_]; [done|]. by rewrite IH.
Qed.

Lemma split1_absent (sep : N) (s : str) : sep ∉ s → split1 sep s = [s].
Proof.
  induction s as [|c s IH]; intros Hnot; simpl; [done|].
  apply not_elem_of_cons in Hnot as [Hc Hnot].
  destruct (N.eqb_spec c sep) as [->|_]; [done|]. by rewrite IH.
Qed.

Lemma matches_first_colon (line entry : str) :
  matches line entry →
  ∃ before after, line = before ++ colon :: after ∧ colon ∉ before.
Proof.
  intros [r ->]%startswith_inv.
  rewrite lit_colon, <-(assoc_L (++)).
  assert (colon ∈ entry ++ [colon] ++ r) as Hin by set_solver.
  destruct (list_elem_of_split_l _ _ Hin) as (l1 & l2 & -> & Hl1). eauto.
Qed.

Lemma field_value_after_colon (before after : str) :
  colon ∉ before →
  field_value (before ++ colon :: after) = Val (strip_chars [dquote] (strip after)).
Proof. intros Hnot. unfold field_value. by rewrite split1_at_first. Qed.

Lemma field_value_line_value (line entry : str) :
  matches line entry → field_value line = Val (line_value line).
Proof.
  intros (before & after & -> & Hnot)%matches_first_colon.
  unfold line_value. by rewrite field_value_after_colon.
Qed.

Lemma assigned_field_matches (entries : list str) (line entry : str) :
  assigned_field entries line = Some entry → entry ∈ entries ∧ matches line entry.
Proof.
  unfold assigned_field. intros [Hin Hm]%find_some.
  split; [by apply list_elem_of_In|done].
Qed.

Lemma scan_entries_record (line : str) (entries : list str) (values : gmap str str) :
  scan_entries line entries values = (record_line entries values line, None).
Proof.
  unfold record_line, assigned_field.
  induction entries as [|entry rest IH]; simpl; [done|].
  destruct (startswith line (entry ++ lit ":")) eqn:Hm; [|done].
  by rewrite (field_value_line_value line entry).
Qed.

Lemma scan_lines_foldl (f : file_iter) (entries : list str) (values : gmap str str) :
  scan_lines f entries values =
    (foldl (record_line entries) values (lines_of f), failure_of f).
Proof.
  revert values. induction f as [|line rest IH|e]; intros values; simpl; [done| |done].
  by rewrite scan_entries_record, IH.
Qed.

Lemma lines_of_file_of (ls : list str) (tail : file_iter) :
  lines_of (file_of ls tail) = ls ++ lines_of tail.
Proof. induction ls as [|l ls IH]; simpl; [done|]. by rewrite <-IH. Qed.

Lemma foldl_record_lookup (entries : list str) (values : gmap str str)
    (ls : list str) (entry : str) :
  foldl (record_line entries) values ls !! entry =
    match last (filter (λ line, assigned_field entries line = Some entry) ls) with
    | Some line => Some (line_value line)
    | None => values !! entry
    end.
Proof.
  induction ls as [|line ls IH] using rev_ind; [done|].
  rewrite foldl_app, filter_app, last_app. simpl.
  unfold record_line at 1.
  destruct (assigned_field entries line) as [hit|] eqn:Hhit.
  - destruct (decide (hit = entry)) as [->|Hne].
    + rewrite filter_cons_True by done. simpl. by rewrite lookup_insert_eq.
    + rewrite filter_cons_False by congruence. simpl.
      by rewrite lookup_insert_ne.
  - rewrite filter_cons_False by congruence. simpl. done.
Qed.

Lemma lstrip_by_spec (drop : N → bool) (s : str) :
  ∃ pre, s = pre ++ lstrip_by drop s ∧
         Forall (λ c, drop c = true) pre ∧
         ∀ c, head (lstrip_by drop s) = Some c → drop c = false.
Proof.
  induction s as [|c s (pre & Hs & Hpre & Hhead)]; simpl.
  - exists []. by split_and!.
  - destruct (drop c) eqn:Hc.
    + exists (c :: pre). split_and!; [simpl; congruence|by constructor|done].
    + exists []. split_and!; [done|done|]. simpl. by intros ? [= <-].
Qed.

Lemma rstrip_by_spec (drop : N → bool) (s : str) :
  ∃ suf, s = rstrip_by drop s ++ suf ∧
         Forall (λ c, drop c = true) suf ∧
         ∀ c, last (rstrip_by drop s) = Some c → drop c = false.
Proof.
  unfold rstrip_by.
  destruct (lstrip_by_spec drop (reverse s)) as (pre & Hs & Hpre & Hhead).
  exists (reverse pre). repeat split.
  - rewrite <-reverse_app, <-Hs. by rewrite reverse_involutive.
  - by apply Forall_reverse.
  - intros c. rewrite last_reverse. apply Hhead.
Qed.

Lemma strip_by_spec (drop : N → bool) (s : str) :
  ∃ pre suf, s = pre ++ strip_by drop s ++ suf ∧
             Forall (λ c, drop c = true) pre ∧
             Forall (λ c, drop c = true) suf ∧
             (∀ c, head (strip_by drop s) = Some c → drop c = false) ∧
             (∀ c, last (strip_by drop s) = Some c → drop c = false).
Proof.
  unfold strip_by.
  destruct (lstrip_by_spec drop s) as (pre & Hs & Hpre & Hhead).
  destruct (rstrip_by_spec drop (lstrip_by drop s)) as (suf & Ht & Hsuf & Hlast).
  exists pre, suf. repeat split; [by rewrite <-Ht|done|done| |done].
  intros c Hc. apply Hhead. rewrite Ht.
  destruct (rstrip_by drop (lstrip_by drop s)); simplify_eq/=; done.
Qed.

(** C7 (amended): the value of a matching line is the text after the first
    colon of the line, without its surrounding whitespace and without
    every leading and every trailing double quote: the text is
    [ws1 ++ q1 ++ value ++ q2 ++ ws2] with [ws1], [ws2] whitespace, [q1],
    [q2] runs of double quotes, and [value] neither starts nor ends with a
    double quote. *)
Theorem field_value_strips_quote_runs (line entry : str) :
  matches line entry →
  ∃ before after ws1 q1 value q2 ws2,
    line = before ++ colon :: after ∧ (colon ∉ before) ∧
    after = ws1 ++ (q1 ++ value ++ q2) ++ ws2 ∧
    Forall (λ c, isspace c = true) ws1 ∧ Forall (λ c, isspace c = true) ws2 ∧
    (∀ c, head (q1 ++ value ++ q2) = Some c → isspace c = false) ∧
    (∀ c, last (q1 ++ value ++ q2) = Some c → isspace c = false) ∧
    Forall (λ c, c = dquote) q1 ∧ Forall (λ c, c = dquote) q2 ∧
    head value ≠ Some dquote ∧ last value ≠ Some dquote ∧
    field_value line = Val value.
Proof.
  intros (before & after & -> & Hnot)%matches_first_colon.
  destruct (strip_by_spec isspace after) as (ws1 & ws2 & Hafter & Hws1 & Hws2 & Hh & Hl).
  fold (strip after) in Hafter, Hh, Hl.
  destruct (strip_by_spec (λ c, existsb (N.eqb c) [dquote]) (strip after))
    as (q1 & q2 & Hcore & Hq1 & Hq2 & Hqh & Hql).
  fold (strip_chars [dquote] (strip after)) in Hcore, Hqh, Hql.
  assert (∀ c, existsb (N.eqb c) [dquote] = true ↔ c = dquote) as Hq.
  { intros c. simpl. rewrite orb_false_r. apply N.eqb_eq. }
  exists before, after, ws1, q1, (strip_chars [dquote] (strip after)), q2, ws2.
  rewrite <-Hcore. repeat split; try done.
  - eapply Forall_impl; [exact Hq1|]. intros c. apply Hq.
  - eapply Forall_impl; [exact Hq2|]. intros c. apply Hq.
  - intros Hc. apply Hqh in Hc. by rewrite (proj2 (Hq dquote)) in Hc.
  - intros Hc. apply Hql in Hc. by rewrite (proj2 (Hq dquote)) in Hc.
  - by apply field_value_after_colon.
Qed.

Lemma matches_unique (line entry entry' : str) :
  colon ∉ entry → colon ∉ entry' →
  matches line entry → matches line entry' → entry = entry'.
Proof.
  intros Hc Hc' [r Hr]%startswith_inv [r' Hr']%startswith_inv.
  rewrite lit_colon, <-(assoc_L (++)) in Hr, Hr'. simpl in Hr, Hr'.
  assert (split1 colon line = [entry; r]) as H1 by (by rewrite Hr, split1_at_first).
  assert (split1 colon line = [entry'; r']) as H2 by (by rewrite Hr', split1_at_first).
  congruence.
Qed.

Lemma assigned_field_colon_free (entries : list str) (line entry : str) :
  (∀ e, e ∈ entries → colon ∉ e) → entry ∈ entries →
  assigned_field entries line = Some entry ↔ matches line entry.
Proof.
  intros Hfree Hin. split; [by intros [_ ?]%assigned_field_matches|].
  intros Hm. destruct (assigned_field entries line) as [hit|] eqn:Hhit.
  - apply assigned_field_matches in Hhit as [Hhit_in Hhit_m].
    f_equal. eapply matches_unique; eauto.
  - unfold assigned_field in Hhit.
    apply list_elem_of_In in Hin. apply (find_none _ _ Hhit) in Hin.
    unfold matches in Hm. congruence.
Qed.

Section MetadataReader.
Context {fs : FileSystem}.

Lemma get_metadata_entries_present (metadata_path : Path) (entries : list str) :
  exists_ metadata_path = Val true →
  get_metadata_entries metadata_path entries =
    Val (map (get_or_empty
                (foldl (record_line entries) ∅ (lines_of (open_ metadata_path))))
             entries).
Proof.
  intros Hp. unfold get_metadata_entries. rewrite Hp. cbn.
  by rewrite scan_lines_foldl.
Qed.

Lemma get_metadata_entries_absent (metadata_path : Path) (entries : list str) :
  exists_ metadata_path = Val false →
  get_metadata_entries metadata_path entries = Val (replicate (length entries) []).
Proof. intros Hp. unfold get_metadata_entries. by rewrite Hp. Qed.

Lemma get_metadata_entries_unchecked (metadata_path : Path) (entries : list str)
    (e : exn) :
  exists_ metadata_path = Raise e →
  get_metadata_entries metadata_path entries = Raise e.
Proof. intros Hp. unfold get_metadata_entries. by rewrite Hp. Qed.

Lemma get_or_empty_foldl (entries ls : list str) (entry : str) :
  get_or_empty (foldl (record_line entries) ∅ ls) entry =
    last_value (filter (λ line, assigned_field entries line = Some entry) ls).
Proof.
  unfold get_or_empty, last_value. rewrite foldl_record_lookup.
  by destruct (last _).
Qed.

(** C1 (amended): when the file exists, the value returned for a requested
    field is the value of the last line assigned to that field, a line
    being assigned to the first requested field it matches; when no field
    name holds a colon this is the last line that matches the field. A
    field without such a line gets the empty string. *)
Theorem get_metadata_entries_last_match (metadata_path : Path) (entries : list str) :
  exists_ metadata_path = Val true →
  ∃ vs, get_metadata_entries metadata_path entries = Val vs ∧
    (∀ i entry, entries !! i = Some entry →
       vs !! i = Some (last_value
         (filter (λ line, assigned_field entries line = Some entry)
                 (lines_of (open_ metadata_path))))) ∧
    ((∀ e, e ∈ entries → colon ∉ e) →
     ∀ i entry, entries !! i = Some entry →
       vs !! i = Some (last_value
         (filter (λ line, matches line entry) (lines_of (open_ metadata_path))))).
Proof.
  intros Hp. eexists. split; [by apply get_metadata_entries_present|].
  assert (∀ i entry, entries !! i = Some entry →
    map (get_or_empty (foldl (record_line entries) ∅ (lines_of (open_ metadata_path))))
        entries !! i =
    Some (last_value (filter (λ line, assigned_field entries line = Some entry)
                             (lines_of (open_ metadata_path))))) as Hgen.
  { intros i entry Hi.
    change (map ?f ?l) with (f <$> l).
    by rewrite list_lookup_fmap, Hi, <-get_or_empty_foldl. }
  split; [done|].
  intros Hfree i entry Hi. rewrite (Hgen i entry Hi). do 2 f_equal.
  apply list_filter_iff. intros line.
  apply assigned_field_colon_free; [done|]. by eapply list_elem_of_lookup_2.
Qed.

(** C6 (amended): whenever [exists] answers for the path, the reader
    returns, without raising, one value per requested field, the i-th
    value being the one of the i-th field: the value of the last line of
    the file assigned to it, the empty string when there is none. When
    [exists] answers that the path does not exist every value is the empty
    string, whatever the file would have held. The existence test stands
    outside the [try]: an exception it raises is raised by the reader. *)
Theorem get_metadata_entries_shape (metadata_path : Path) (entries : list str) :
  (∀ present, exists_ metadata_path = Val present →
     ∃ vs, get_metadata_entries metadata_path entries = Val vs ∧
       length vs = length entries ∧
       (∀ i entry, entries !! i = Some entry →
          vs !! i = Some
            (if present
             then last_value
                    (filter (λ line, assigned_field entries line = Some entry)
                            (lines_of (open_ metadata_path)))
             else [])) ∧
       (present = false → vs = replicate (length entries) [])) ∧
  (∀ e, exists_ metadata_path = Raise e →
     get_metadata_entries metadata_path entries = Raise e).
Proof.
  split; [|apply get_metadata_entries_unchecked].
  intros [|] Hp.
  - eexists. split; [by apply get_metadata_entries_present|].
    split_and!; [by rewrite length_map| |done].
    intros i entry Hi.
    change (map ?f ?l) with (f <$> l).
    by rewrite list_lookup_fmap, Hi, <-get_or_empty_foldl.
  - eexists. split; [by apply get_metadata_entries_absent|].
    split_and!; [by rewrite length_replicate| |done].
    intros i entry Hi. apply lookup_replicate_2. by eapply lookup_lt_Some.
Qed.

End MetadataReader.

(** *** The Link Extractor *)

Lemma bind_Val {A B : Type} (a : A) (k : A → outcome B) : (Val a ≫= k) = k a.
Proof. reflexivity. Qed.

Lemma bind_Raise {A B : Type} (e : exn) (k : A → outcome B) :
  (Raise e ≫= k) = Raise e.
Proof. reflexivity. Qed.

Lemma bind_Val_inv {A B : Type} (m : outcome A) (k : A → outcome B) (b : B) :
  m ≫= k = Val b → ∃ a, m = Val a ∧ k a = Val b.
Proof. destruct m as [a|e]; [|done]. intros Hk. by exists a. Qed.

Lemma github_href_anchor (n : node) (href : str) :
  github_href n = Some href ↔ github_anchor n href.
Proof.
  unfold github_anchor, contains. split.
  - destruct n as [t|tag_name attrs contents]; simpl; [done|].
    case_bool_decide as Ha; [subst tag_name|done].
    destruct (attrs !! lit "href") as [h|] eqn:Hh; [simpl|done].
    destruct (str_in (lit "github.com") h) eqn:Hin; [|done].
    intros [= ->]. exists attrs, contents. split_and!; [done|done|].
    by apply str_in_iff.
  - intros (attrs & contents & -> & Hh & Hin). simpl.
    rewrite bool_decide_eq_true_2 by done. rewrite Hh. simpl.
    apply str_in_iff in Hin. by rewrite Hin.
Qed.

Lemma github_hrefs_filter (l : list node) :
  github_hrefs (List.filter is_a_with_href l) = Val (omap github_href l).
Proof.
  induction l as [|n l IH]; [done|].
  destruct n as [t|tag_name attrs contents]; [exact IH|].
  cbn [List.filter is_a_with_href omap list_omap github_href].
  case_bool_decide as Ha; [subst tag_name|exact IH].
  destruct (attrs !! lit "href") as [h|] eqn:Hh.
  - rewrite bool_decide_eq_true_2 by eauto.
    cbn [andb github_hrefs getitem]. rewrite Hh. rewrite !bind_Val.
    cbn [mbind option_bind].
    destruct (str_in (lit "github.com") h); [|exact IH].
    by rewrite IH.
  - rewrite bool_decide_eq_false_2 by (by intros [? ?]). exact IH.
Qed.

Lemma omap_github_href_anchors (soup : node) :
  omap github_href (descendants soup) = omap github_href (anchors soup).
Proof.
  unfold anchors. induction (descendants soup) as [|n l IH]; [done|].
  destruct n as [t|tag_name attrs contents]; [exact IH|].
  cbn [List.filter omap list_omap github_href].
  case_bool_decide; [|exact IH].
  cbn [omap list_omap github_href].
  rewrite bool_decide_eq_true_2 by done. by rewrite IH.
Qed.

Section LinkExtractor.
Context {fs : FileSystem}.
Variable BeautifulSoup : str → outcome node.

Lemma extract_github_link_head (file_path : Path) (html_content : str) (soup : node) :
  read (open_ file_path) = Val html_content →
  BeautifulSoup html_content = Val soup →
  extract_github_link BeautifulSoup file_path =
    Val (head (omap github_href (descendants soup))).
Proof.
  intros Hread Hparse. unfold extract_github_link, find_all_a_href.
  rewrite Hread, bind_Val, Hparse, bind_Val, github_hrefs_filter, bind_Val.
  by destruct (omap _ _).
Qed.

Lemma extract_github_link_Some (file_path : Path) (href : str) :
  extract_github_link BeautifulSoup file_path = Val (Some href) →
  contains (lit "github.com") href.
Proof.
  intros Hext. pose proof Hext as Hext'. unfold extract_github_link in Hext'.
  apply bind_Val_inv in Hext' as (html & Hread & Hext').
  apply bind_Val_inv in Hext' as (soup & Hparse & _).
  rewrite (extract_github_link_head _ _ _ Hread Hparse) in Hext.
  injection Hext as Hhead. apply head_Some_elem_of in Hhead.
  apply list_elem_of_omap in Hhead as (n & _ & Hn).
  apply github_href_anchor in Hn as (? & ? & _ & _ & ?). done.
Qed.

(** C2: once the file is read and parsed, the extractor returns the
    hyperlink target of the first node in document order that is an anchor
    whose target contains github.com, and nothing when no node is such an
    anchor; for a document whose anchors are the two of the example it
    returns exactly https://github.com/org/repo. *)
Theorem extract_github_link_first (file_path : Path) (html_content : str)
    (soup : node) :
  read (open_ file_path) = Val html_content →
  BeautifulSoup html_content = Val soup →
  (∀ before link after href,
     descendants soup = before ++ link :: after →
     github_anchor link href →
     (∀ n h, n ∈ before → ¬ github_anchor n h) →
     extract_github_link BeautifulSoup file_path = Val (Some href)) ∧
  ((∀ n h, n ∈ descendants soup → ¬ github_anchor n h) →
     extract_github_link BeautifulSoup file_path = Val None) ∧
  (anchors soup =
     [Tag (lit "a") {[lit "href" := lit "https://example.com"]}
          [NavigableString (lit "x")];
      Tag (lit "a") {[lit "href" := lit "https://github.com/org/repo"]}
          [NavigableString (lit "y")]] →
     extract_github_link BeautifulSoup file_path =
       Val (Some (lit "https://github.com/org/repo"))).
Proof.
  intros Hread Hparse. rewrite (extract_github_link_head _ _ _ Hread Hparse).
  split_and!.
  - intros before link after href -> Hlink Hbefore.
    rewrite omap_app. cbn [omap list_omap].
    rewrite (proj2 (github_href_anchor _ _) Hlink).
    replace (omap github_href before) with (@nil str); [done|].
    symmetry. clear -Hbefore. induction before as [|n l IH]; [done|].
    cbn [omap list_omap]. destruct (github_href n) as [h|] eqn:Hn.
    + apply github_href_anchor in Hn. destruct (Hbefore n h); [left|done].
    + apply IH. intros ???. apply Hbefore. by right.
  - intros Hnone.
    replace (omap github_href (descendants soup)) with (@nil str); [done|].
    symmetry. induction (descendants soup) as [|n l IH]; [done|].
    cbn [omap list_omap]. destruct (github_href n) as [h|] eqn:Hn.
    + apply github_href_anchor in Hn. destruct (Hnone n h); [left|done].
    + apply IH. intros ???. apply Hnone. by right.
  - intros Hanchors. rewrite omap_github_href_anchors, Hanchors.
    by vm_compute.
Qed.

End LinkExtractor.

(** *** Loops *)

Lemma for_each_app {A S : Type} (body : A → S → outcome S) (l1 l2 : list A) (s : S) :
  for_each body (l1 ++ l2) s = for_each body l1 s ≫= for_each body l2.
Proof.
  revert s. induction l1 as [|x l1 IH]; intros s; simpl; [done|].
  destruct (body x s) as [s'|e]; [|done]. rewrite !bind_Val. apply IH.
Qed.

Lemma for_each_cons_Val {A S : Type} (body : A → S → outcome S)
    (x : A) (l : list A) (s s' : S) :
  for_each body (x :: l) s = Val s' →
  ∃ s1, body x s = Val s1 ∧ for_each body l s1 = Val s'.
Proof. simpl. apply bind_Val_inv. Qed.

Lemma for_each_invariant {A S : Type} (body : A → S → outcome S) (P : S → Prop)
    (l : list A) (s s' : S) :
  (∀ x t t', x ∈ l → P t → body x t = Val t' → P t') →
  P s → for_each body l s = Val s' → P s'.
Proof.
  revert s. induction l as [|x l IH]; intros s Hbody Hs Hrun.
  - by injection Hrun as <-.
  - apply for_each_cons_Val in Hrun as (s1 & Hx & Hrun).
    eapply IH; [|by eapply (Hbody x); [left|..]|done].
    intros y t t' Hy. apply Hbody. by right.
Qed.


(** *** Font entries *)

Lemma font_entry_dom (name_ display_name link : str) :
  dom (font_entry name_ display_name link) = entry_keys.
Proof.
  unfold font_entry, entry_keys. rewrite !dom_insert_L, dom_empty_L. set_solver.
Qed.

Lemma font_entry_link (name_ display_name link : str) :
  font_entry name_ display_name link !! lit "link" = Some link.
Proof. unfold font_entry. apply lookup_insert_eq. Qed.

(** *** The Registry Builder *)

Section RegistryBuilder.
Context {fs : FileSystem}.
Variable BeautifulSoup : str → outcome node.
Variable console_print : str → outcome unit.

Lemma metadata_pair (metadata_path : Path) (vs : list str) :
  get_metadata_entries metadata_path [lit "name"; lit "display_name"] = Val vs →
  ∃ name_ display_name, vs = [name_; display_name].
Proof.
  destruct (exists_ metadata_path) as [[|]|e] eqn:Hp.
  - rewrite get_metadata_entries_present by done. intros [= <-]. simpl. eauto.
  - rewrite get_metadata_entries_absent by done. intros [= <-]. simpl. eauto.
  - by rewrite (get_metadata_entries_unchecked _ _ e).
Qed.

Lemma main_subdir_file (dir_name : str) (subdir : Path)
    (font_data : gmap str (gmap str str)) :
  is_dir subdir = Val false →
  main_subdir BeautifulSoup console_print dir_name subdir font_data = Val font_data.
Proof. intros Hd. unfold main_subdir. by rewrite Hd. Qed.

Lemma main_subdir_dir (dir_name : str) (subdir : Path)
    (font_data : gmap str (gmap str str)) :
  is_dir subdir = Val true →
  main_subdir BeautifulSoup console_print dir_name subdir font_data =
    link ← font_link BeautifulSoup dir_name (name subdir);
    values ← get_metadata_entries (subdir // lit "METADATA.pb")
               [lit "name"; lit "display_name"];
    name_ ← index values 0;
    display_name ← index values 1;
    _ ← console_print (progress_line (name subdir) name_ display_name link);
    Val (<[name subdir := font_entry name_ display_name link]> font_data).
Proof.
  intros Hd. unfold main_subdir, font_link. rewrite Hd, bind_Val. cbn [negb].
  destruct (get_html_path dir_name (name subdir)) as [[hp|]|e]; [|done|done].
  rewrite !bind_Val.
  by destruct (extract_github_link BeautifulSoup hp) as [[[|c l]|]|e].
Qed.

Lemma main_subdir_dir_meta (dir_name : str) (subdir : Path) (name_ display_name : str)
    (font_data : gmap str (gmap str str)) :
  is_dir subdir = Val true →
  get_metadata_entries (subdir // lit "METADATA.pb") [lit "name"; lit "display_name"]
    = Val [name_; display_name] →
  main_subdir BeautifulSoup console_print dir_name subdir font_data =
    link ← font_link BeautifulSoup dir_name (name subdir);
    _ ← console_print (progress_line (name subdir) name_ display_name link);
    Val (<[name subdir := font_entry name_ display_name link]> font_data).
Proof.
  intros Hd Hmeta. rewrite main_subdir_dir by done.
  destruct (font_link BeautifulSoup dir_name (name subdir)) as [link|e]; [|done].
  by rewrite !bind_Val, Hmeta.
Qed.

Lemma font_link_ok (dir_name font_name link : str) :
  font_link BeautifulSoup dir_name font_name = Val link → link_ok link.
Proof.
  unfold font_link, link_ok.
  destruct (get_html_path dir_name font_name) as [[hp|]|e];
    [|intros [= <-]; by left|done].
  rewrite bind_Val.
  destruct (extract_github_link BeautifulSoup hp) as [[[|c l]|]|e] eqn:Hext;
    rewrite ?bind_Val, ?bind_Raise; intros [= <-]; [by left| |by left].
  right. by eapply extract_github_link_Some.
Qed.

Lemma main_subdir_Val (dir_name : str) (subdir : Path)
    (font_data font_data' : gmap str (gmap str str)) :
  main_subdir BeautifulSoup console_print dir_name subdir font_data = Val font_data' →
  (is_dir subdir = Val false ∧ font_data' = font_data) ∨
  (is_dir subdir = Val true ∧
   ∃ name_ display_name link,
     font_link BeautifulSoup dir_name (name subdir) = Val link ∧
     get_metadata_entries (subdir // lit "METADATA.pb")
       [lit "name"; lit "display_name"] = Val [name_; display_name] ∧
     console_print (progress_line (name subdir) name_ display_name link) = Val tt ∧
     ∀ fd, main_subdir BeautifulSoup console_print dir_name subdir fd =
             Val (<[name subdir := font_entry name_ display_name link]> fd)).
Proof.
  destruct (is_dir subdir) as [[|]|e] eqn:Hd.
  - rewrite main_subdir_dir by done.
    intros (link & Hlink & Hrun)%bind_Val_inv.
    apply bind_Val_inv in Hrun as (vs & Hmeta & Hrun).
    destruct (metadata_pair _ _ Hmeta) as (n & dn & ->).
    change (index [n; dn] 0) with (Val n) in Hrun.
    change (index [n; dn] 1) with (Val dn) in Hrun.
    rewrite !bind_Val in Hrun.
    apply bind_Val_inv in Hrun as ([] & Hprint & _).
    right. split; [done|]. exists n, dn, link. split_and!; try done.
    intros fd. rewrite (main_subdir_dir_meta _ _ n dn) by done.
    by rewrite Hlink, bind_Val, Hprint.
  - rewrite main_subdir_file by done. intros [= <-]. by left.
  - unfold main_subdir. by rewrite Hd.
Qed.

Lemma main_subdir_lookup_other (dir_name : str) (subdir : Path) (font : str)
    (font_data font_data' : gmap str (gmap str str)) :
  (is_dir subdir = Val true → name subdir ≠ font) →
  main_subdir BeautifulSoup console_print dir_name subdir font_data = Val font_data' →
  font_data' !! font = font_data !! font.
Proof.
  intros Hne Hrun.
  destruct (main_subdir_Val _ _ _ _ Hrun)
    as [[_ ->]|(Hd & n & dn & link & _ & _ & _ & Hbody)]; [done|].
  rewrite Hbody in Hrun. injection Hrun as <-.
  apply lookup_insert_ne. by apply Hne.
Qed.

Lemma main_subdir_ok (dir_name : str) (subdir : Path)
    (font_data font_data' : gmap str (gmap str str)) :
  registry_ok font_data →
  main_subdir BeautifulSoup console_print dir_name subdir font_data = Val font_data' →
  registry_ok font_data'.
Proof.
  intros Hok Hrun.
  destruct (main_subdir_Val _ _ _ _ Hrun)
    as [[_ ->]|(Hd & n & dn & link & Hlink & _ & _ & Hbody)]; [done|].
  rewrite Hbody in Hrun. injection Hrun as <-.
  intros font entry. rewrite lookup_insert. case_decide as Hfont.
  - intros [= <-]. split; [apply font_entry_dom|].
    exists link. split; [apply font_entry_link|by eapply font_link_ok].
  - apply Hok.
Qed.

Lemma main_dir_absent (dir_name : str) (font_data : gmap str (gmap str str)) :
  exists_ (BASE_PATH // dir_name) = Val false →
  main_dir BeautifulSoup console_print dir_name font_data = Val font_data.
Proof. intros Hp. unfold main_dir. by rewrite Hp. Qed.

Lemma main_dir_present (dir_name : str) (font_data : gmap str (gmap str str)) :
  exists_ (BASE_PATH // dir_name) = Val true →
  main_dir BeautifulSoup console_print dir_name font_data =
    subdirs ← iterdir (BASE_PATH // dir_name);
    for_each (main_subdir BeautifulSoup console_print dir_name) subdirs font_data.
Proof. intros Hp. unfold main_dir. by rewrite Hp. Qed.

Lemma main_dir_unchecked (dir_name : str) (font_data : gmap str (gmap str str))
    (e : exn) :
  exists_ (BASE_PATH // dir_name) = Raise e →
  main_dir BeautifulSoup console_print dir_name font_data = Raise e.
Proof. intros Hp. unfold main_dir. by rewrite Hp. Qed.

Lemma main_dir_ok (dir_name : str) (font_data font_data' : gmap str (gmap str str)) :
  registry_ok font_data →
  main_dir BeautifulSoup console_print dir_name font_data = Val font_data' →
  registry_ok font_data'.
Proof.
  intros Hok. destruct (exists_ (BASE_PATH // dir_name)) as [[|]|e] eqn:Hp.
  - rewrite main_dir_present by done.
    intros (subdirs & _ & Hrun)%bind_Val_inv.
    eapply for_each_invariant; [|exact Hok|exact Hrun].
    intros s t t' _. apply main_subdir_ok.
  - rewrite main_dir_absent by done. by intros [= <-].
  - by rewrite (main_dir_unchecked _ _ e).
Qed.

Lemma main_ok (font_data : gmap str (gmap str str)) :
  main BeautifulSoup console_print = Val font_data → registry_ok font_data.
Proof.
  unfold main. apply for_each_invariant; [|done].
  intros d t t' _. apply main_dir_ok.
Qed.

End RegistryBuilder.

Section RegistryProperties.
Context {fs : FileSystem}.
Variable BeautifulSoup : str → outcome node.
Variable console_print : str → outcome unit.

Lemma for_each_subdirs_lookup (dir_name font : str) (subdirs : list Path)
    (font_data font_data' : gmap str (gmap str str)) :
  (∀ s, s ∈ subdirs → is_dir s = Val true → name s ≠ font) →
  for_each (main_subdir BeautifulSoup console_print dir_name) subdirs font_data
    = Val font_data' →
  font_data' !! font = font_data !! font.
Proof.
  intros Hne Hrun.
  eapply (for_each_invariant _ (λ fd, fd !! font = font_data !! font));
    [|done|exact Hrun].
  intros s t t' Hs Ht Hstep. simpl. rewrite <-Ht.
  eapply main_subdir_lookup_other; [|exact Hstep]. by apply Hne.
Qed.

Lemma main_dir_lookup_other (dir_name font : str)
    (font_data font_data' : gmap str (gmap str str)) :
  (exists_ (BASE_PATH // dir_name) = Val true →
   ∀ subdirs s, iterdir (BASE_PATH // dir_name) = Val subdirs →
                s ∈ subdirs → is_dir s = Val true → name s ≠ font) →
  main_dir BeautifulSoup console_print dir_name font_data = Val font_data' →
  font_data' !! font = font_data !! font.
Proof.
  intros Hne. destruct (exists_ (BASE_PATH // dir_name)) as [[|]|e] eqn:Hp.
  - rewrite main_dir_present by done.
    intros (subdirs & Hlist & Hrun)%bind_Val_inv.
    eapply for_each_subdirs_lookup; [|exact Hrun]. intros s. by eapply Hne.
  - rewrite main_dir_absent by done. by intros [= <-].
  - by rewrite (main_dir_unchecked _ _ _ _ e).
Qed.

(** C4 (amended): when two categories hold a font directory of the same
    name, and no category after the later one does, the registry maps the
    name to the entry built from the later category's directory: the
    earlier entry is overwritten, not merged. The registry is a map, so the
    name has one entry. *)
Theorem later_category_overwrites
    (reg : gmap str (gmap str str)) (pre post : list str) (earlier later font : str)
    (listing1 before2 after2 : list Path) (subdir1 subdir2 : Path) :
  main BeautifulSoup console_print = Val reg →
  DIRS = pre ++ later :: post → earlier ∈ pre →
  exists_ (BASE_PATH // earlier) = Val true →
  iterdir (BASE_PATH // earlier) = Val listing1 → subdir1 ∈ listing1 →
  is_dir subdir1 = Val true → name subdir1 = font →
  exists_ (BASE_PATH // later) = Val true →
  iterdir (BASE_PATH // later) = Val (before2 ++ subdir2 :: after2) →
  is_dir subdir2 = Val true → name subdir2 = font →
  (∀ s, s ∈ after2 → is_dir s = Val true → name s ≠ font) →
  (∀ c subdirs s, c ∈ post → exists_ (BASE_PATH // c) = Val true →
     iterdir (BASE_PATH // c) = Val subdirs → s ∈ subdirs →
     is_dir s = Val true → name s ≠ font) →
  ∃ entry,
    (∀ fd, main_subdir BeautifulSoup console_print later subdir2 fd
             = Val (<[font := entry]> fd)) ∧
    reg !! font = Some entry.
Proof.
  intros Hmain HDIRS _ _ _ _ _ _ Hp2 Hlist2 Hd2 Hname2 Hafter Hpost.
  unfold main in Hmain. rewrite HDIRS, for_each_app in Hmain.
  apply bind_Val_inv in Hmain as (reg1 & _ & Hmain).
  apply for_each_cons_Val in Hmain as (reg2 & Hlater & Hrest).
  rewrite main_dir_present, Hlist2, bind_Val, for_each_app in Hlater by done.
  apply bind_Val_inv in Hlater as (fd1 & _ & Hlater).
  apply for_each_cons_Val in Hlater as (fd2 & Hstep & Hafter2).
  destruct (main_subdir_Val _ _ _ _ _ _ Hstep)
    as [[Hd _]|(_ & n & dn & link & _ & _ & _ & Hbody)]; [congruence|].
  rewrite Hname2 in Hbody.
  exists (font_entry n dn link). split; [done|].
  rewrite Hbody in Hstep. injection Hstep as <-.
  apply (for_each_subdirs_lookup later font) in Hafter2; [|done].
  rewrite lookup_insert_eq in Hafter2. rewrite <-Hafter2.
  eapply (for_each_invariant _ (λ fd, fd !! font = reg2 !! font)); [|done|exact Hrest].
  intros c t t' Hc Ht Hdir. rewrite <-Ht.
  eapply main_dir_lookup_other; [|exact Hdir].
  intros Hpc subdirs s. by apply Hpost.
Qed.

(** C5: when the metadata file exists and reading it fails after the lines
    [ls], the reader returns without raising: one value per requested
    field, the value of the last of the lines [ls] assigned to the field,
    the empty string for a field with no such line, hence every value
    empty when the failure comes before any line. The failure does not
    reach the loop body of [main]: once the link is computed, the body
    builds the font's entry from those values, and its outcome is that of
    printing the progress line, the registry with the entry when the line
    is printed. *)
Theorem metadata_read_failure_swallowed
    (metadata_path : Path) (entries ls : list str) (e : exn) :
  exists_ metadata_path = Val true →
  open_ metadata_path = file_of ls (Broken e) →
  ∃ vs,
    get_metadata_entries metadata_path entries = Val vs ∧
    length vs = length entries ∧
    (∀ i entry, entries !! i = Some entry →
       vs !! i = Some (last_value
         (filter (λ line, assigned_field entries line = Some entry) ls))) ∧
    (ls = [] → vs = replicate (length entries) []) ∧
    (∀ dir_name subdir font_data link,
       metadata_path = subdir // lit "METADATA.pb" →
       entries = [lit "name"; lit "display_name"] →
       is_dir subdir = Val true →
       font_link BeautifulSoup dir_name (name subdir) = Val link →
       ∃ name_ display_name,
         vs = [name_; display_name] ∧
         main_subdir BeautifulSoup console_print dir_name subdir font_data =
           (_ ← console_print (progress_line (name subdir) name_ display_name link);
            Val (<[name subdir := font_entry name_ display_name link]> font_data)) ∧
         (console_print (progress_line (name subdir) name_ display_name link)
            = Val tt →
          main_subdir BeautifulSoup console_print dir_name subdir font_data =
            Val (<[name subdir := font_entry name_ display_name link]> font_data))).
Proof.
  intros Hp Hopen.
  assert (get_metadata_entries metadata_path entries =
    Val (map (get_or_empty (foldl (record_line entries) ∅ ls)) entries)) as Hres.
  { rewrite get_metadata_entries_present by done.
    rewrite Hopen, lines_of_file_of. simpl. by rewrite app_nil_r. }
  eexists. split; [exact Hres|].
  split_and!.
  - by rewrite length_map.
  - intros i entry Hi. change (map ?f ?l) with (f <$> l).
    by rewrite list_lookup_fmap, Hi, <-get_or_empty_foldl.
  - intros ->. simpl. clear.
    induction entries as [|entry entries IH]; [done|]. simpl. by rewrite IH.
  - intros dir_name subdir font_data link -> -> Hd Hlink.
    eexists _, _. split; [done|].
    rewrite (main_subdir_dir_meta _ _ _ _ _ _ _ Hd Hres), Hlink, bind_Val.
    split; [done|]. by intros ->.
Qed.


(** C9: the loop body of [main] on a font directory inserts, under the
    directory name, an entry with exactly the keys name, display_name and
    link. When no description file is found, or the extractor finds no
    anchor, the entry is built all the same and its link is the empty
    string: the body returns the registry with that entry as soon as the
    progress line is printed, and returns no other registry. Every entry
    of the final registry has exactly the three keys. *)
Theorem font_entry_fields (dir_name : str) (subdir : Path)
    (font_data : gmap str (gmap str str)) :
  is_dir subdir = Val true →
  (∀ font_data',
     main_subdir BeautifulSoup console_print dir_name subdir font_data
       = Val font_data' →
     ∃ entry, font_data' = <[name subdir := entry]> font_data ∧
              dom entry = entry_keys) ∧
  ((get_html_path dir_name (name subdir) = Val None ∨
    ∃ html_path, get_html_path dir_name (name subdir) = Val (Some html_path) ∧
                 extract_github_link BeautifulSoup html_path = Val None) →
   ∀ name_ display_name,
     get_metadata_entries (subdir // lit "METADATA.pb")
       [lit "name"; lit "display_name"] = Val [name_; display_name] →
     let entry := font_entry name_ display_name [] in
     dom entry = entry_keys ∧ entry !! lit "link" = Some [] ∧
     (console_print (progress_line (name subdir) name_ display_name []) = Val tt →
      main_subdir BeautifulSoup console_print dir_name subdir font_data =
        Val (<[name subdir := entry]> font_data)) ∧
     (∀ font_data',
        main_subdir BeautifulSoup console_print dir_name subdir font_data
          = Val font_data' →
        font_data' = <[name subdir := entry]> font_data)) ∧
  (∀ reg font entry,
     main BeautifulSoup console_print = Val reg → reg !! font = Some entry →
     dom entry = entry_keys).
Proof.
  intros Hd. split_and!.
  - intros font_data' Hrun.
    destruct (main_subdir_Val _ _ _ _ _ _ Hrun)
      as [[Hd' _]|(_ & n & dn & link & _ & _ & _ & Hbody)]; [congruence|].
    rewrite Hbody in Hrun. injection Hrun as <-.
    eexists. split; [done|apply font_entry_dom].
  - intros Hnone n dn Hmeta entry.
    assert (font_link BeautifulSoup dir_name (name subdir) = Val []) as Hlink.
    { unfold font_link. destruct Hnone as [->|(hp & -> & Hext)]; [done|].
      by rewrite bind_Val, Hext. }
    assert (main_subdir BeautifulSoup console_print dir_name subdir font_data =
              _ ← console_print (progress_line (name subdir) n dn []);
              Val (<[name subdir := entry]> font_data)) as Hbody.
    { rewrite (main_subdir_dir_meta _ _ _ _ n dn) by done. by rewrite Hlink. }
    split_and!; [apply font_entry_dom|apply font_entry_link| |].
    + intros Hprint. by rewrite Hbody, Hprint.
    + intros font_data'. rewrite Hbody.
      by intros (_ & _ & [= <-])%bind_Val_inv.
  - intros reg font entry Hmain Hentry.
    by destruct (main_ok BeautifulSoup console_print reg Hmain font entry Hentry).
Qed.

(** C10: every entry of the final registry has a link, and the link is the
    empty string or contains github.com. *)
Theorem registry_links_mention_github
    (reg : gmap str (gmap str str)) (font : str) (entry : gmap str str) :
  main BeautifulSoup console_print = Val reg → reg !! font = Some entry →
  ∃ link, entry !! lit "link" = Some link ∧
          (link = [] ∨ ∃ a b, link = a ++ lit "github.com" ++ b).
Proof.
  intros Hmain Hentry.
  by destruct (main_ok BeautifulSoup console_print reg Hmain font entry Hentry).
Qed.

End RegistryProperties.

(* ===================================================================== *)
(** ** The properties on the sample tree *)
(* ===================================================================== *)

Module SampleChecks.
Import TreeFS.

Example main_on_sample :
  @main Sample.fs Sample.parser Sample.console = Val Sample.registry.
Proof. vm_compute. reflexivity. Qed.

Example reader_on_sample :
  @get_metadata_entries Sample.fs (Sample.metadata_of Sample.ofl_foo)
    [lit "name"; lit "display_name"] = Val [lit "Foo Again"; lit "Foo Display"].
Proof. vm_compute. reflexivity. Qed.

(** The specification's reading of C1 fails on a file with two [name]
    lines: the reader returns the value of the second one. *)
Lemma first_match_does_not_win :
  @get_metadata_entries Sample.fs (Sample.metadata_of Sample.ofl_foo) [lit "name"]
    = Val [lit "Foo Again"] ∧
  first_match_values [lit "name"]
    (lines_of (@open_ Sample.fs (Sample.metadata_of Sample.ofl_foo)))
    = [lit "Foo"] ∧
  @get_metadata_entries Sample.fs (Sample.metadata_of Sample.ofl_foo) [lit "name"]
    ≠ Val (first_match_values [lit "name"]
             (lines_of (@open_ Sample.fs (Sample.metadata_of Sample.ofl_foo)))).
Proof. vm_compute. split_and!; [reflexivity|reflexivity|discriminate]. Qed.

Lemma get_metadata_entries_last_match_witness :
  ∃ vs,
    @get_metadata_entries Sample.fs (Sample.metadata_of Sample.ofl_foo)
      [lit "name"; lit "display_name"] = Val vs ∧
    vs !! 0 = Some (last_value
      (filter (λ line, matches line (lit "name"))
              (lines_of (@open_ Sample.fs (Sample.metadata_of Sample.ofl_foo))))) ∧
    vs !! 1 = Some (last_value
      (filter (λ line, matches line (lit "display_name"))
              (lines_of (@open_ Sample.fs (Sample.metadata_of Sample.ofl_foo))))).
Proof.
  destruct (@get_metadata_entries_last_match Sample.fs
              (Sample.metadata_of Sample.ofl_foo) [lit "name"; lit "display_name"])
    as (vs & Hvs & _ & Hlast).
  - vm_compute. reflexivity.
  - assert (∀ e, e ∈ [lit "name"; lit "display_name"] → colon ∉ e) as Hfree.
    { apply Forall_forall.
      apply (bool_decide_unpack (Forall (λ e : str, colon ∉ e)
                                   [lit "name"; lit "display_name"])).
      vm_compute. exact I. }
    exists vs. split_and!; [exact Hvs|by apply Hlast|by apply Hlast].
Defined.

Lemma extract_github_link_first_witness :
  @extract_github_link Sample.fs Sample.parser (Sample.description_of Sample.ofl_foo)
    = Val (Some (lit "https://github.com/org/repo")).
Proof.
  destruct (@extract_github_link_first Sample.fs Sample.parser
              (Sample.description_of Sample.ofl_foo) Sample.description_html
              Sample.description_soup)
    as (_ & _ & Hexample).
  - vm_compute. reflexivity.
  - vm_compute. reflexivity.
  - apply Hexample. vm_compute. reflexivity.
Defined.

(** The literal reading of C3 fails on a font name longer than a file name
    may be: the category holds no such directory, so neither candidate
    file exists, yet the resolver raises instead of returning nothing. *)
Lemma missing_file_with_long_name_raises :
  @iterdir Sample.fs (@BASE_PATH Sample.fs // lit "ofl") = Val MoreSamples.ofl_listing ∧
  Forall (λ subdir, @name Sample.fs subdir ≠ Sample.long_name) MoreSamples.ofl_listing ∧
  @get_html_path Sample.fs (lit "ofl") Sample.long_name = Raise OSError ∧
  @get_html_path Sample.fs (lit "ofl") Sample.long_name ≠ Val None.
Proof.
  split_and!.
  - vm_compute. reflexivity.
  - apply (bool_decide_unpack
             (Forall (λ subdir, @name Sample.fs subdir ≠ Sample.long_name)
                     MoreSamples.ofl_listing)).
    vm_compute. exact I.
  - vm_compute. reflexivity.
  - vm_compute. discriminate.
Qed.

Lemma get_html_path_candidates_witness :
  @get_html_path Sample.fs (lit "apache") (lit "foo")
    = Val (Some (Sample.apache_foo ++ [lit "article"; lit "ARTICLE.en_us.html"])) ∧
  @get_html_path Sample.fs (lit "ofl") (lit "foo")
    = Val (Some (Sample.description_of Sample.ofl_foo)) ∧
  @get_html_path Sample.fs (lit "ofl") (lit "bar") = Val None ∧
  @get_html_path Sample.fs (lit "ofl") Sample.long_name = Raise OSError.
Proof.
  split_and!.
  - apply (@get_html_path_candidates Sample.fs (lit "apache") (lit "foo"));
      vm_compute; reflexivity.
  - apply (@get_html_path_candidates Sample.fs (lit "ofl") (lit "foo"));
      vm_compute; reflexivity.
  - apply (@get_html_path_candidates Sample.fs (lit "ofl") (lit "bar"));
      vm_compute; reflexivity.
  - pose proof (@get_html_path_candidates Sample.fs (lit "ofl") Sample.long_name)
      as Hcandidates.
    cbv zeta in Hcandidates.
    destruct Hcandidates as (_ & _ & _ & _ & Hraise & _).
    apply Hraise. vm_compute. reflexivity.
Defined.

(** The literal reading of C4 fails when a third, later category holds
    the name too: [ofl] and [apache] both hold [foo], yet the registry
    carries the entry of [ufl], not the one of [apache]. *)
Lemma third_category_overwrites_pair :
  DIRS = [lit "ofl"] ++ lit "apache" :: [lit "ufl"] ∧
  @iterdir Sample.crowded_fs (@BASE_PATH Sample.crowded_fs // lit "ofl")
    = Val [Sample.ofl_foo] ∧
  @is_dir Sample.crowded_fs Sample.ofl_foo = Val true ∧
  @name Sample.crowded_fs Sample.ofl_foo = lit "foo" ∧
  @iterdir Sample.crowded_fs (@BASE_PATH Sample.crowded_fs // lit "apache")
    = Val [Sample.apache_foo] ∧
  @is_dir Sample.crowded_fs Sample.apache_foo = Val true ∧
  @name Sample.crowded_fs Sample.apache_foo = lit "foo" ∧
  @main_subdir Sample.crowded_fs Sample.parser Sample.console
     (lit "apache") Sample.apache_foo ∅
    = Val {[lit "foo" := font_entry (lit "Foo Apache") [] []]} ∧
  ∃ reg, @main Sample.crowded_fs Sample.parser Sample.console = Val reg ∧
         reg !! lit "foo" = Some (font_entry (lit "Foo UFL") [] []) ∧
         reg !! lit "foo" ≠ Some (font_entry (lit "Foo Apache") [] []).
Proof.
  split_and!; try (vm_compute; reflexivity).
  eexists. split_and!; [vm_compute; reflexivity| |]; vm_compute; [reflexivity|discriminate].
Qed.

Lemma later_category_overwrites_witness :
  ∃ entry,
    (∀ fd, @main_subdir Sample.fs Sample.parser Sample.console
             (lit "apache") Sample.apache_foo fd
             = Val (<[lit "foo" := entry]> fd)) ∧
    Sample.registry !! lit "foo" = Some entry.
Proof.
  apply (@later_category_overwrites Sample.fs Sample.parser Sample.console
           Sample.registry
           [lit "ofl"] [lit "ufl"] (lit "ofl") (lit "apache") (lit "foo")
           [Sample.ofl_foo; Sample.ofl_bar; Sample.ofl_readme; Sample.ofl_baz]
           [] [] Sample.ofl_foo Sample.apache_foo).
  - vm_compute. reflexivity.
  - vm_compute. reflexivity.
  - apply list_elem_of_here.
  - vm_compute. reflexivity.
  - vm_compute. reflexivity.
  - apply list_elem_of_here.
  - vm_compute. reflexivity.
  - vm_compute. reflexivity.
  - vm_compute. reflexivity.
  - vm_compute. reflexivity.
  - vm_compute. reflexivity.
  - vm_compute. reflexivity.
  - intros s Hs. destruct (not_elem_of_nil s Hs).
  - intros c subdirs s Hc Hp. apply list_elem_of_singleton in Hc. subst c.
    vm_compute in Hp. discriminate Hp.
Defined.

Lemma metadata_read_failure_swallowed_witness :
  (∃ name_,
     @get_metadata_entries Sample.fs (Sample.metadata_of Sample.apache_foo)
       [lit "name"; lit "display_name"] = Val [name_; []] ∧
     name_ = last_value
               (filter (λ line,
                          assigned_field [lit "name"; lit "display_name"] line
                            = Some (lit "name"))
                       [Sample.quoted_line "name" "Foo Apache"]) ∧
     @main_subdir Sample.fs Sample.parser Sample.console (lit "apache")
        Sample.apache_foo ∅
       = Val (<[lit "foo" := font_entry name_ [] []]> ∅)) ∧
  @get_metadata_entries MoreSamples.locked_fs
     (Sample.metadata_of MoreSamples.ofl_locked) [lit "name"; lit "display_name"]
    = Val [[]; []].
Proof.
  split.
  - destruct (@metadata_read_failure_swallowed Sample.fs Sample.parser Sample.console
                (Sample.metadata_of Sample.apache_foo) [lit "name"; lit "display_name"]
                [Sample.quoted_line "name" "Foo Apache"] UnicodeDecodeError)
      as (vs & Hvs & _ & Hvalues & _ & Hbody).
    + vm_compute. reflexivity.
    + vm_compute. reflexivity.
    + destruct (Hbody (lit "apache") Sample.apache_foo ∅ [])
        as (n & dn & -> & _ & Hrun); [reflexivity|reflexivity|
                                  vm_compute; reflexivity|vm_compute; reflexivity|].
      pose proof (Hvalues 0 (lit "name") eq_refl) as Hn.
      pose proof (Hvalues 1 (lit "display_name") eq_refl) as Hdn.
      injection Hn as ->. injection Hdn as ->.
      eexists. split_and!; [exact Hvs|reflexivity|].
      apply Hrun. vm_compute. reflexivity.
  - destruct (@metadata_read_failure_swallowed MoreSamples.locked_fs
                Sample.parser Sample.console
                (Sample.metadata_of MoreSamples.ofl_locked)
                [lit "name"; lit "display_name"] [] OSError)
      as (vs & Hvs & _ & _ & Hempty & _).
    + vm_compute. reflexivity.
    + vm_compute. reflexivity.
    + rewrite Hvs. f_equal. by apply Hempty.
Defined.

(** The literal reading of C6 fails on a path that does not exist because
    one of its names is longer than a file name may be: the existence
    test raises and the reader with it. *)
Lemma missing_path_with_long_name_raises :
  @iterdir Sample.fs (@BASE_PATH Sample.fs // lit "ofl") = Val MoreSamples.ofl_listing ∧
  Forall (λ subdir, @name Sample.fs subdir ≠ Sample.long_name) MoreSamples.ofl_listing ∧
  @get_metadata_entries Sample.fs
     (Sample.metadata_of [lit "google-fonts"; lit "ofl"; Sample.long_name])
     [lit "name"; lit "display_name"] = Raise OSError ∧
  @get_metadata_entries Sample.fs
     (Sample.metadata_of [lit "google-fonts"; lit "ofl"; Sample.long_name])
     [lit "name"; lit "display_name"] ≠ Val [[]; []].
Proof.
  split_and!.
  - vm_compute. reflexivity.
  - apply (bool_decide_unpack
             (Forall (λ subdir, @name Sample.fs subdir ≠ Sample.long_name)
                     MoreSamples.ofl_listing)).
    vm_compute. exact I.
  - vm_compute. reflexivity.
  - vm_compute. discriminate.
Qed.

Lemma get_metadata_entries_shape_witness :
  (∃ vs,
     @get_metadata_entries Sample.fs (Sample.metadata_of Sample.ofl_foo)
       [lit "name"; lit "display_name"] = Val vs ∧
     length vs = 2 ∧
     vs !! 0 = Some (last_value
       (filter (λ line, assigned_field [lit "name"; lit "display_name"] line
                          = Some (lit "name"))
               (lines_of (@open_ Sample.fs (Sample.metadata_of Sample.ofl_foo)))))) ∧
  (∃ vs,
     @get_metadata_entries Sample.fs (Sample.metadata_of Sample.ofl_bar)
       [lit "name"; lit "display_name"] = Val vs ∧
     length vs = 2 ∧ vs = [[]; []]) ∧
  @get_metadata_entries Sample.fs
     (Sample.metadata_of [lit "google-fonts"; lit "ofl"; Sample.long_name])
     [lit "name"; lit "display_name"] = Raise OSError.
Proof.
  split_and!.
  - destruct (@get_metadata_entries_shape Sample.fs (Sample.metadata_of Sample.ofl_foo)
                [lit "name"; lit "display_name"]) as [Hanswer _].
    destruct (Hanswer true) as (vs & Hvs & Hlen & Hvalues & _);
      [vm_compute; reflexivity|].
    exists vs. split_and!; [exact Hvs|exact Hlen|].
    apply (Hvalues 0 (lit "name")). reflexivity.
  - destruct (@get_metadata_entries_shape Sample.fs (Sample.metadata_of Sample.ofl_bar)
                [lit "name"; lit "display_name"]) as [Hanswer _].
    destruct (Hanswer false) as (vs & Hvs & Hlen & _ & Hempty);
      [vm_compute; reflexivity|].
    exists vs. split_and!; [exact Hvs|exact Hlen|by apply Hempty].
  - apply (@get_metadata_entries_shape Sample.fs).
    vm_compute. reflexivity.
Defined.

(** The specification's reading of C7 fails on a value wrapped in two
    layers of quotes: both layers are removed. *)
Lemma two_quote_layers_removed :
  field_value Sample.doubly_quoted_line = Val (lit "Fira") ∧
  one_layer_value Sample.doubly_quoted_line = [dquote] ++ lit "Fira" ++ [dquote] ∧
  field_value Sample.doubly_quoted_line
    ≠ Val (one_layer_value Sample.doubly_quoted_line).
Proof. vm_compute. split_and!; [reflexivity|reflexivity|discriminate]. Qed.

Lemma field_value_strips_quote_runs_witness :
  ∃ before after ws1 q1 value q2 ws2,
    Sample.doubly_quoted_line = before ++ colon :: after ∧ (colon ∉ before) ∧
    after = ws1 ++ (q1 ++ value ++ q2) ++ ws2 ∧
    Forall (λ c, isspace c = true) ws1 ∧ Forall (λ c, isspace c = true) ws2 ∧
    (∀ c, head (q1 ++ value ++ q2) = Some c → isspace c = false) ∧
    (∀ c, last (q1 ++ value ++ q2) = Some c → isspace c = false) ∧
    Forall (λ c, c = dquote) q1 ∧ Forall (λ c, c = dquote) q2 ∧
    head value ≠ Some dquote ∧ last value ≠ Some dquote ∧
    field_value Sample.doubly_quoted_line = Val value.
Proof.
  apply (field_value_strips_quote_runs Sample.doubly_quoted_line (lit "name")).
  vm_compute. reflexivity.
Defined.


Lemma font_entry_fields_witness :
  dom (font_entry [] [] []) = entry_keys ∧
  font_entry [] [] [] !! lit "link" = Some [] ∧
  @main_subdir Sample.fs Sample.parser Sample.console (lit "ofl") Sample.ofl_bar ∅ =
    Val (<[lit "bar" := font_entry [] [] []]> ∅).
Proof.
  destruct (@font_entry_fields Sample.fs Sample.parser Sample.console
              (lit "ofl") Sample.ofl_bar ∅)
    as (_ & Hnone & _).
  - vm_compute. reflexivity.
  - destruct (Hnone (or_introl eq_refl) [] []) as (Hdom & Hlink & Hrun & _).
    + vm_compute. reflexivity.
    + split_and!; [exact Hdom|exact Hlink|].
      apply Hrun. vm_compute. reflexivity.
Defined.

Lemma registry_links_mention_github_witness :
  ∃ link,
    font_entry [] [] (lit "https://github.com/org/repo") !! lit "link" = Some link ∧
    (link = [] ∨ ∃ a b, link = a ++ lit "github.com" ++ b).
Proof.
  apply (@registry_links_mention_github Sample.fs Sample.parser Sample.console
           Sample.registry (lit "baz")).
  - vm_compute. reflexivity.
  - vm_compute. reflexivity.
Defined.

End SampleChecks.

(* ===================================================================== *)
(** ** Further properties of the Metadata Reader *)
(* ===================================================================== *)

Lemma lstrip_by_dropped (drop : N → bool) (pre s : str) :
  Forall (λ c, drop c = true) pre → lstrip_by drop (pre ++ s) = lstrip_by drop s.
Proof.
  induction 1 as [|c pre Hc _ IH]; simpl; [done|]. by rewrite Hc.
Qed.

Lemma lstrip_by_kept (drop : N → bool) (s : str) :
  (∀ c, head s = Some c → drop c = false) → lstrip_by drop s = s.
Proof.
  destruct s as [|c s]; simpl; [done|]. intros Hc. by rewrite (Hc c).
Qed.

Lemma lstrip_by_all (drop : N → bool) (s : str) :
  Forall (λ c, drop c = true) s → lstrip_by drop s = [].
Proof. induction 1 as [|c s Hc _ IH]; simpl; [done|]. by rewrite Hc. Qed.

Lemma rstrip_by_dropped (drop : N → bool) (s suf : str) :
  Forall (λ c, drop c = true) suf → rstrip_by drop (s ++ suf) = rstrip_by drop s.
Proof.
  intros Hsuf. unfold rstrip_by. rewrite reverse_app.
  rewrite lstrip_by_dropped; [done|]. by apply Forall_reverse.
Qed.

Lemma rstrip_by_kept (drop : N → bool) (s : str) :
  (∀ c, last s = Some c → drop c = false) → rstrip_by drop s = s.
Proof.
  intros Hc. unfold rstrip_by. rewrite lstrip_by_kept.
  - apply reverse_involutive.
  - intros c. rewrite head_reverse. apply Hc.
Qed.

Lemma strip_by_exact (drop : N → bool) (pre core suf : str) :
  Forall (λ c, drop c = true) pre → Forall (λ c, drop c = true) suf →
  (∀ c, head core = Some c → drop c = false) →
  (∀ c, last core = Some c → drop c = false) →
  strip_by drop (pre ++ core ++ suf) = core.
Proof.
  intros Hpre Hsuf Hhead Hlast. unfold strip_by.
  rewrite lstrip_by_dropped by done.
  destruct core as [|c core].
  - simpl. rewrite lstrip_by_all by done. by vm_compute.
  - rewrite lstrip_by_kept by (simpl; apply Hhead).
    rewrite rstrip_by_dropped by done. by apply rstrip_by_kept.
Qed.

(** X6: a line [field: value] whose value is wrapped in runs of double
    quotes and surrounded by whitespace gives back exactly the wrapped
    text, whatever it holds inside (spaces, colons, quotes in the middle). *)
Theorem field_value_of_wrapped_value
    (before ws1 q1 value q2 ws2 : str) :
  colon ∉ before →
  Forall (λ c, isspace c = true) ws1 → Forall (λ c, isspace c = true) ws2 →
  Forall (λ c, c = dquote) q1 → Forall (λ c, c = dquote) q2 →
  (∀ c, head (q1 ++ value ++ q2) = Some c → isspace c = false) →
  (∀ c, last (q1 ++ value ++ q2) = Some c → isspace c = false) →
  head value ≠ Some dquote → last value ≠ Some dquote →
  field_value (before ++ colon :: ws1 ++ (q1 ++ value ++ q2) ++ ws2) = Val value.
Proof.
  intros Hcolon Hws1 Hws2 Hq1 Hq2 Hhead Hlast Hvh Hvl.
  rewrite field_value_after_colon by done. f_equal.
  unfold strip. rewrite strip_by_exact by done.
  assert (∀ c, existsb (N.eqb c) [dquote] = true ↔ c = dquote) as Hq.
  { intros c. simpl. rewrite orb_false_r. apply N.eqb_eq. }
  unfold strip_chars. apply strip_by_exact.
  - eapply Forall_impl; [exact Hq1|]. intros c. apply Hq.
  - eapply Forall_impl; [exact Hq2|]. intros c. apply Hq.
  - intros c Hc. destruct (existsb (N.eqb c) [dquote]) eqn:Hex; [|done].
    apply Hq in Hex. congruence.
  - intros c Hc. destruct (existsb (N.eqb c) [dquote]) eqn:Hex; [|done].
    apply Hq in Hex. congruence.
Qed.

Lemma field_value_no_colon (line : str) :
  colon ∉ line → field_value line = Raise IndexError.
Proof. intros Hnot. unfold field_value. by rewrite split1_absent. Qed.

(** X7: the expression that extracts the value raises [IndexError] exactly
    on a line without a colon; a line that matches a field has one, so the
    only exception the block that reads the file can end with is the one
    the file itself raised. *)
Theorem reader_block_fails_only_with_the_file
    (line : str) (f : file_iter) (entries : list str) (values : gmap str str) :
  (field_value line = Raise IndexError ↔ colon ∉ line) ∧
  (∀ e, field_value line = Raise e → e = IndexError) ∧
  (scan_entries line entries values).2 = None ∧
  (scan_lines f entries values).2 = failure_of f.
Proof.
  assert (colon ∈ line → ∃ v, field_value line = Val v) as Hin.
  { intros (before & after & -> & Hnot)%list_elem_of_split_l.
    rewrite field_value_after_colon by done. eauto. }
  split_and!.
  - split; [|apply field_value_no_colon].
    intros Hraise Hcolon. destruct (Hin Hcolon) as [v Hv]. congruence.
  - intros e He. destruct (decide (colon ∈ line)) as [Hcolon|Hcolon].
    + destruct (Hin Hcolon) as [v Hv]. congruence.
    + rewrite field_value_no_colon in He by done. congruence.
  - by rewrite scan_entries_record.
  - by rewrite scan_lines_foldl.
Qed.

Lemma assigned_field_indented (entries : list str) (c : N) (rest : str) :
  isspace c = true →
  (∀ e c', e ∈ entries → head e = Some c' → isspace c' = false) →
  assigned_field entries (c :: rest) = None.
Proof.
  intros Hc Hentries. unfold assigned_field.
  induction entries as [|e entries IH]; [done|].
  cbn [List.find].
  assert (startswith (c :: rest) (e ++ lit ":") = false) as ->.
  { rewrite lit_colon. destruct e as [|c' e]; simpl.
    - destruct (N.eqb_spec c colon) as [->|_]; [by vm_compute in Hc|done].
    - destruct (N.eqb_spec c c') as [->|_]; [|done].
      rewrite (Hentries (c' :: e) c') in Hc; [done|left|done]. }
  apply IH. intros e' c' He'. apply Hentries. by right.
Qed.

(** X4: matching is anchored at the first column. A line that begins with
    a whitespace character is assigned to no field (unless a requested
    name itself begins with whitespace): an indented [name:] line, as in a
    nested block, leaves the recorded values untouched. *)
Theorem indented_line_ignored
    (entries : list str) (values : gmap str str) (c : N) (rest : str) :
  isspace c = true →
  (∀ e c', e ∈ entries → head e = Some c' → isspace c' = false) →
  scan_entries (c :: rest) entries values = (values, None).
Proof.
  intros Hc Hentries. rewrite scan_entries_record. unfold record_line.
  by rewrite assigned_field_indented.
Qed.

Lemma foldl_record_filter (entries : list str) (values : gmap str str) (ls : list str) :
  foldl (record_line entries) values ls =
  foldl (record_line entries) values
        (filter (λ line, is_Some (assigned_field entries line)) ls).
Proof.
  revert values. induction ls as [|line ls IH]; intros values; [done|].
  destruct (assigned_field entries line) as [hit|] eqn:Hhit.
  - rewrite filter_cons_True by (by rewrite Hhit). simpl. apply IH.
  - rewrite filter_cons_False by (rewrite Hhit; by intros [? ?]). simpl.
    unfold record_line at 2. rewrite Hhit. apply IH.
Qed.

Lemma map_get_or_empty_empty (entries : list str) :
  map (get_or_empty ∅) entries = replicate (length entries) [].
Proof. induction entries as [|e entries IH]; [done|]. simpl. by rewrite IH. Qed.

Section MoreMetadataReader.
Context {fs : FileSystem}.

(** X3: the lines of a file that match no requested field do not count:
    a file gives the same result as the file made of its matching lines
    alone, and a file without any matching line gives what a missing file
    gives, every value empty. *)
Theorem unmatched_lines_ignored (metadata_path : Path) (entries : list str) :
  exists_ metadata_path = Val true →
  (∀ other_path,
     exists_ other_path = Val true →
     lines_of (open_ other_path) =
       filter (λ line, is_Some (assigned_field entries line))
              (lines_of (open_ metadata_path)) →
     get_metadata_entries metadata_path entries =
     get_metadata_entries other_path entries) ∧
  ((∀ line, line ∈ lines_of (open_ metadata_path) →
            assigned_field entries line = None) →
   get_metadata_entries metadata_path entries = Val (replicate (length entries) [])).
Proof.
  intros Hp. split.
  - intros other_path Hother Hlines.
    rewrite !get_metadata_entries_present by done.
    by rewrite Hlines, <-foldl_record_filter.
  - intros Hnone. rewrite get_metadata_entries_present by done.
    rewrite foldl_record_filter.
    replace (filter _ _) with (@nil str); [simpl; by rewrite map_get_or_empty_empty|].
    symmetry. induction (lines_of (open_ metadata_path)) as [|line ls IH]; [done|].
    rewrite filter_cons_False.
    + apply IH. intros l Hl. apply Hnone. by right.
    + rewrite (Hnone line) by left. by intros [? ?].
Qed.

(** X5: when no requested name holds a colon, the value returned for a
    field does not depend on the other fields requested with it: it is
    the value returned when that field is requested alone (and the two
    requests raise together when the existence test raises). *)
Theorem field_result_independent_of_other_fields
    (metadata_path : Path) (entries : list str) (i : nat) (entry : str) :
  (∀ e, e ∈ entries → colon ∉ e) →
  entries !! i = Some entry →
  (∃ e, get_metadata_entries metadata_path entries = Raise e ∧
        get_metadata_entries metadata_path [entry] = Raise e) ∨
  (∃ vs v,
     get_metadata_entries metadata_path entries = Val vs ∧
     get_metadata_entries metadata_path [entry] = Val [v] ∧
     vs !! i = Some v).
Proof.
  intros Hfree Hi.
  assert (entry ∈ entries) as Hin by (by eapply list_elem_of_lookup_2).
  destruct (exists_ metadata_path) as [[|]|e] eqn:Hp.
  - right. rewrite !get_metadata_entries_present by done.
    eexists _, _. split_and!; [done|done|].
    change (map ?f ?l) with (f <$> l). rewrite list_lookup_fmap, Hi. simpl.
    f_equal. rewrite !get_or_empty_foldl. f_equal.
    apply list_filter_iff. intros line.
    rewrite assigned_field_colon_free by done.
    rewrite assigned_field_colon_free; [done| |by left].
    intros e ->%list_elem_of_singleton. by apply Hfree.
  - right. rewrite !get_metadata_entries_absent by done.
    eexists _, _. split_and!; [done|done|].
    apply lookup_replicate_2. by eapply lookup_lt_Some.
  - left. exists e. by rewrite !(get_metadata_entries_unchecked _ _ e).
Qed.

End MoreMetadataReader.

(* ===================================================================== *)
(** ** Further properties of the Link Extractor and the Registry Builder *)
(* ===================================================================== *)


Lemma for_each_Raise_at {A S : Type} (body : A → S → outcome S)
    (l1 l2 : list A) (x : A) (s t : S) (e : exn) :
  for_each body l1 s = Val t → body x t = Raise e →
  for_each body (l1 ++ x :: l2) s = Raise e.
Proof.
  intros Hl1 Hx. rewrite for_each_app, Hl1, bind_Val. simpl. by rewrite Hx.
Qed.

Lemma lit_github_com_nonempty (a b : str) : a ++ lit "github.com" ++ b ≠ [].
Proof.
  intros [_ [Hlit _]%app_eq_nil]%app_eq_nil. by vm_compute in Hlit.
Qed.

Lemma font_entry_name (name_ display_name link : str) :
  font_entry name_ display_name link !! lit "name" = Some name_.
Proof.
  unfold font_entry.
  rewrite lookup_insert_ne by (intros H; by vm_compute in H).
  rewrite lookup_insert_ne by (intros H; by vm_compute in H).
  apply lookup_insert_eq.
Qed.

Lemma font_entry_display_name (name_ display_name link : str) :
  font_entry name_ display_name link !! lit "display_name" = Some display_name.
Proof.
  unfold font_entry.
  rewrite lookup_insert_ne by (intros H; by vm_compute in H).
  apply lookup_insert_eq.
Qed.

Section MoreRegistry.
Context {fs : FileSystem}.
Variable BeautifulSoup : str → outcome node.
Variable console_print : str → outcome unit.

Lemma extract_github_link_read (file_path : Path) :
  extract_github_link BeautifulSoup file_path =
    html_content ← read (open_ file_path);
    soup ← BeautifulSoup html_content;
    Val (head (omap github_href (descendants soup))).
Proof.
  destruct (read (open_ file_path)) as [html|e] eqn:Hread.
  - rewrite bind_Val. destruct (BeautifulSoup html) as [soup|e] eqn:Hparse.
    + by apply extract_github_link_head with (html_content := html).
    + unfold extract_github_link. by rewrite Hread, bind_Val, Hparse.
  - unfold extract_github_link. by rewrite Hread.
Qed.

Lemma extract_github_link_Raise (file_path : Path) (e : exn) :
  extract_github_link BeautifulSoup file_path = Raise e ↔
  read (open_ file_path) = Raise e ∨
  ∃ html_content, read (open_ file_path) = Val html_content ∧
                  BeautifulSoup html_content = Raise e.
Proof.
  rewrite extract_github_link_read.
  destruct (read (open_ file_path)) as [html|e'].
  - rewrite bind_Val. destruct (BeautifulSoup html) as [soup|e''] eqn:Hparse.
    + split; [done|]. intros [?|(h & [= <-] & Hh)]; congruence.
    + rewrite bind_Raise. split.
      * intros [= ->]. right. by exists html.
      * intros [?|(h & [= <-] & Hh)]; congruence.
  - rewrite bind_Raise. split.
    + intros [= ->]. by left.
    + intros [[= ->]|(h & ? & _)]; done.
Qed.

(** X1: the extractor raises exactly when reading the file raises or the
    parser rejects the text read, and with the same exception: the search
    through the parsed document never fails (no [KeyError] from
    [link["href"]], every link kept by [find_all] carrying the attribute). *)
Theorem extract_github_link_raises_iff (file_path : Path) (e : exn) :
  extract_github_link BeautifulSoup file_path = Raise e ↔
  read (open_ file_path) = Raise e ∨
  ∃ html_content, read (open_ file_path) = Val html_content ∧
                  BeautifulSoup html_content = Raise e.
Proof.
  split.
  - intros Hext. destruct (read (open_ file_path)) as [html|e'] eqn:Hread.
    + right. exists html. split; [done|].
      unfold extract_github_link in Hext. rewrite Hread, bind_Val in Hext.
      destruct (BeautifulSoup html) as [soup|e''] eqn:Hparse;
        [|rewrite bind_Raise in Hext; congruence].
      rewrite bind_Val in Hext. unfold find_all_a_href in Hext.
      rewrite github_hrefs_filter, bind_Val in Hext.
      by destruct (omap _ _).
    + left. unfold extract_github_link in Hext.
      rewrite Hread, bind_Raise in Hext. congruence.
  - intros [Hread|(html & Hread & Hparse)]; unfold extract_github_link.
    + by rewrite Hread.
    + by rewrite Hread, bind_Val, Hparse.
Qed.



Lemma main_subdir_unreadable (dir_name : str) (subdir html_path : Path)
    (font_data : gmap str (gmap str str)) (e : exn) :
  is_dir subdir = Val true →
  get_html_path dir_name (name subdir) = Val (Some html_path) →
  read (open_ html_path) = Raise e →
  main_subdir BeautifulSoup console_print dir_name subdir font_data = Raise e.
Proof.
  intros Hd Hpath Hread. rewrite main_subdir_dir by done.
  unfold font_link. rewrite Hpath, bind_Val.
  assert (extract_github_link BeautifulSoup html_path = Raise e) as ->; [|done].
  apply extract_github_link_Raise. by left.
Qed.

(** X2: when the description file of a font directory holds an anchor to
    github.com, the entry built for the directory carries as link exactly
    the target the extractor returned, which contains github.com (the
    truth test on the extracted link never discards it): the loop body
    returns the registry with that entry as soon as the progress line is
    printed, and returns no other registry. *)
Theorem github_link_recorded (dir_name : str) (subdir html_path : Path)
    (href name_ display_name : str) :
  is_dir subdir = Val true →
  get_html_path dir_name (name subdir) = Val (Some html_path) →
  extract_github_link BeautifulSoup html_path = Val (Some href) →
  get_metadata_entries (subdir // lit "METADATA.pb") [lit "name"; lit "display_name"]
    = Val [name_; display_name] →
  let entry := font_entry name_ display_name href in
  contains (lit "github.com") href ∧ entry !! lit "link" = Some href ∧
  (∀ font_data,
     console_print (progress_line (name subdir) name_ display_name href) = Val tt →
     main_subdir BeautifulSoup console_print dir_name subdir font_data =
       Val (<[name subdir := entry]> font_data)) ∧
  (∀ font_data font_data',
     main_subdir BeautifulSoup console_print dir_name subdir font_data
       = Val font_data' →
     font_data' = <[name subdir := entry]> font_data).
Proof.
  intros Hd Hpath Hext Hmeta entry.
  pose proof (extract_github_link_Some _ _ _ Hext) as Hin.
  assert (font_link BeautifulSoup dir_name (name subdir) = Val href) as Hlink.
  { unfold font_link. rewrite Hpath, bind_Val, Hext, bind_Val.
    destruct href as [|c l]; [|done].
    destruct Hin as (a & b & Hab). symmetry in Hab.
    by apply lit_github_com_nonempty in Hab. }
  assert (∀ font_data,
    main_subdir BeautifulSoup console_print dir_name subdir font_data =
      _ ← console_print (progress_line (name subdir) name_ display_name href);
      Val (<[name subdir := entry]> font_data)) as Hbody.
  { intros font_data.
    rewrite (main_subdir_dir_meta _ _ _ _ name_ display_name) by done.
    by rewrite Hlink. }
  split_and!; [done|apply font_entry_link| |].
  - intros font_data Hprint. by rewrite Hbody, Hprint.
  - intros font_data font_data'. rewrite Hbody.
    by intros (_ & _ & [= <-])%bind_Val_inv.
Qed.

(** X10: the name and display_name of the entry inserted for a font
    directory are the two values the reader returns for the METADATA.pb of
    that directory; when the directory has no METADATA.pb both are the
    empty string. *)
Theorem entry_names_from_metadata (dir_name : str) (subdir : Path)
    (font_data font_data' : gmap str (gmap str str)) :
  is_dir subdir = Val true →
  main_subdir BeautifulSoup console_print dir_name subdir font_data = Val font_data' →
  ∃ name_ display_name entry,
    get_metadata_entries (subdir // lit "METADATA.pb") [lit "name"; lit "display_name"]
      = Val [name_; display_name] ∧
    font_data' !! name subdir = Some entry ∧
    entry !! lit "name" = Some name_ ∧
    entry !! lit "display_name" = Some display_name ∧
    (exists_ (subdir // lit "METADATA.pb") = Val false →
     name_ = [] ∧ display_name = []).
Proof.
  intros Hd Hrun.
  destruct (main_subdir_Val _ _ _ _ _ _ Hrun)
    as [[Hd' _]|(_ & n & dn & link & _ & Hmeta & _ & Hbody)]; [congruence|].
  rewrite Hbody in Hrun. injection Hrun as <-.
  exists n, dn, (font_entry n dn link).
  split_and!; [done|apply lookup_insert_eq|apply font_entry_name
              |apply font_entry_display_name|].
  intros Hp. rewrite get_metadata_entries_absent in Hmeta by done.
  simpl in Hmeta. by injection Hmeta as <- <-.
Qed.


(** X13: an unreadable description file aborts the run. When everything
    before a font directory went through and the description file chosen
    for it raises on reading, [main] raises that exception, whatever the
    rest of the tree holds. *)
Theorem unreadable_description_aborts
    (pre post : list str) (dir_name : str) (before after : list Path)
    (subdir html_path : Path) (reg0 reg1 : gmap str (gmap str str)) (e : exn) :
  DIRS = pre ++ dir_name :: post →
  for_each (main_dir BeautifulSoup console_print) pre ∅ = Val reg0 →
  exists_ (BASE_PATH // dir_name) = Val true →
  iterdir (BASE_PATH // dir_name) = Val (before ++ subdir :: after) →
  for_each (main_subdir BeautifulSoup console_print dir_name) before reg0 = Val reg1 →
  is_dir subdir = Val true →
  get_html_path dir_name (name subdir) = Val (Some html_path) →
  read (open_ html_path) = Raise e →
  main BeautifulSoup console_print = Raise e.
Proof.
  intros HDIRS Hpre Hp Hlist Hbefore Hd Hpath Hread.
  unfold main. rewrite HDIRS.
  eapply for_each_Raise_at; [exact Hpre|].
  rewrite main_dir_present, Hlist, bind_Val by done.
  eapply for_each_Raise_at; [exact Hbefore|].
  by eapply main_subdir_unreadable.
Qed.

(** X14: a category path that exists but cannot be listed, a regular file
    for instance, is not skipped: only a path that does not exist is. When
    the categories before it went through, [main] raises the exception of
    the listing. *)
Theorem unlistable_category_aborts
    (pre post : list str) (dir_name : str) (reg0 : gmap str (gmap str str)) (e : exn) :
  DIRS = pre ++ dir_name :: post →
  for_each (main_dir BeautifulSoup console_print) pre ∅ = Val reg0 →
  exists_ (BASE_PATH // dir_name) = Val true →
  iterdir (BASE_PATH // dir_name) = Raise e →
  main BeautifulSoup console_print = Raise e.
Proof.
  intros HDIRS Hpre Hp Hlist. unfold main. rewrite HDIRS.
  eapply for_each_Raise_at; [exact Hpre|].
  by rewrite main_dir_present, Hlist by done.
Qed.

(** X16: the progress line is printed as console markup after the entry
    is inserted, and a print that raises aborts the run: when everything
    before a font directory went through, its link and metadata are
    computed, and printing its progress line raises, [main] raises that
    exception and no registry is written. *)
Theorem progress_line_failure_aborts
    (pre post : list str) (dir_name : str) (before after : list Path)
    (subdir : Path) (reg0 reg1 : gmap str (gmap str str))
    (link name_ display_name : str) (e : exn) :
  DIRS = pre ++ dir_name :: post →
  for_each (main_dir BeautifulSoup console_print) pre ∅ = Val reg0 →
  exists_ (BASE_PATH // dir_name) = Val true →
  iterdir (BASE_PATH // dir_name) = Val (before ++ subdir :: after) →
  for_each (main_subdir BeautifulSoup console_print dir_name) before reg0 = Val reg1 →
  is_dir subdir = Val true →
  font_link BeautifulSoup dir_name (name subdir) = Val link →
  get_metadata_entries (subdir // lit "METADATA.pb") [lit "name"; lit "display_name"]
    = Val [name_; display_name] →
  console_print (progress_line (name subdir) name_ display_name link) = Raise e →
  main BeautifulSoup console_print = Raise e.
Proof.
  intros HDIRS Hpre Hp Hlist Hbefore Hd Hlink Hmeta Hprint.
  unfold main. rewrite HDIRS.
  eapply for_each_Raise_at; [exact Hpre|].
  rewrite main_dir_present, Hlist, bind_Val by done.
  eapply for_each_Raise_at; [exact Hbefore|].
  rewrite (main_subdir_dir_meta _ _ _ _ name_ display_name) by done.
  by rewrite Hlink, bind_Val, Hprint.
Qed.

End MoreRegistry.


Section RegistryContents.
Context {fs : FileSystem}.
Variable BeautifulSoup : str → outcome node.
Variable console_print : str → outcome unit.

Lemma main_subdir_keeps_keys (dir_name font : str) (subdir : Path)
    (font_data font_data' : gmap str (gmap str str)) :
  main_subdir BeautifulSoup console_print dir_name subdir font_data = Val font_data' →
  is_Some (font_data !! font) → is_Some (font_data' !! font).
Proof.
  intros Hrun Hfont.
  destruct (main_subdir_Val _ _ _ _ _ _ Hrun)
    as [[_ ->]|(_ & n & dn & link & _ & _ & _ & Hbody)]; [done|].
  rewrite Hbody in Hrun. injection Hrun as <-.
  rewrite lookup_insert. by case_decide.
Qed.

Lemma main_dir_keeps_keys (dir_name font : str)
    (font_data font_data' : gmap str (gmap str str)) :
  main_dir BeautifulSoup console_print dir_name font_data = Val font_data' →
  is_Some (font_data !! font) → is_Some (font_data' !! font).
Proof.
  destruct (exists_ (BASE_PATH // dir_name)) as [[|]|e] eqn:Hp.
  - rewrite main_dir_present by done.
    intros (subdirs & _ & Hrun)%bind_Val_inv Hfont.
    eapply (for_each_invariant _ (λ fd, is_Some (fd !! font))); [|done|exact Hrun].
    intros s t t' _ Ht Hstep. by eapply main_subdir_keeps_keys.
  - rewrite main_dir_absent by done. by intros [= <-].
  - by rewrite (main_dir_unchecked _ _ _ _ e).
Qed.

(** X9: the registry covers every font directory found: when [main]
    returns, each directory listed in an existing category has an entry
    under its name. *)
Theorem every_font_directory_registered
    (reg : gmap str (gmap str str)) (dir_name : str)
    (subdirs : list Path) (subdir : Path) :
  main BeautifulSoup console_print = Val reg →
  dir_name ∈ DIRS → exists_ (BASE_PATH // dir_name) = Val true →
  iterdir (BASE_PATH // dir_name) = Val subdirs → subdir ∈ subdirs →
  is_dir subdir = Val true →
  is_Some (reg !! name subdir).
Proof.
  intros Hmain (pre & post & HDIRS)%list_elem_of_split Hp Hlist
         (before & after & ->)%list_elem_of_split Hd.
  unfold main in Hmain. rewrite HDIRS, for_each_app in Hmain.
  apply bind_Val_inv in Hmain as (reg1 & _ & Hmain).
  apply for_each_cons_Val in Hmain as (reg2 & Hdir & Hrest).
  rewrite main_dir_present, Hlist, bind_Val, for_each_app in Hdir by done.
  apply bind_Val_inv in Hdir as (fd1 & _ & Hdir).
  apply for_each_cons_Val in Hdir as (fd2 & Hstep & Hafter).
  assert (is_Some (fd2 !! name subdir)) as Hin.
  { destruct (main_subdir_Val _ _ _ _ _ _ Hstep)
      as [[Hd' _]|(_ & n & dn & link & _ & _ & _ & Hbody)]; [congruence|].
    rewrite Hbody in Hstep. injection Hstep as <-.
    rewrite lookup_insert_eq. eauto. }
  assert (is_Some (reg2 !! name subdir)) as Hin2.
  { eapply (for_each_invariant _ (λ fd, is_Some (fd !! name subdir)));
      [|exact Hin|exact Hafter].
    intros s t t' _ Ht Hs. by eapply main_subdir_keeps_keys. }
  eapply (for_each_invariant _ (λ fd, is_Some (fd !! name subdir)));
    [|exact Hin2|exact Hrest].
  intros c t t' _ Ht Hc. by eapply main_dir_keeps_keys.
Qed.

(** X8: the registry holds nothing else: when [main] returns, every key is
    the name of a directory listed in one of the categories that exist. *)
Theorem registry_keys_are_font_directories
    (reg : gmap str (gmap str str)) (font : str) :
  main BeautifulSoup console_print = Val reg → is_Some (reg !! font) →
  ∃ dir_name subdirs subdir,
    dir_name ∈ DIRS ∧ exists_ (BASE_PATH // dir_name) = Val true ∧
    iterdir (BASE_PATH // dir_name) = Val subdirs ∧ subdir ∈ subdirs ∧
    is_dir subdir = Val true ∧ name subdir = font.
Proof.
  intros Hmain. revert font.
  eapply (for_each_invariant (main_dir BeautifulSoup console_print)
            (λ fd, ∀ font, is_Some (fd !! font) → _)); [| |exact Hmain].
  - intros d t t' Hd Ht Hdir. simpl in *.
    destruct (exists_ (BASE_PATH // d)) as [[|]|e] eqn:Hp;
      [|rewrite main_dir_absent in Hdir by done; by injection Hdir as <-
       |by rewrite (main_dir_unchecked _ _ _ _ e) in Hdir].
    rewrite main_dir_present in Hdir by done.
    apply bind_Val_inv in Hdir as (subdirs & Hlist & Hrun).
    eapply (for_each_invariant (main_subdir BeautifulSoup console_print d)
              (λ fd, ∀ font, is_Some (fd !! font) → _)); [|exact Ht|exact Hrun].
    intros s u u' Hs Hu Hstep font. simpl in *.
    destruct (main_subdir_Val _ _ _ _ _ _ Hstep)
      as [[_ ->]|(Hsd & n & dn & link & _ & _ & _ & Hbody)]; [apply Hu|].
    rewrite Hbody in Hstep. injection Hstep as <-.
    rewrite lookup_insert. case_decide as Hfont; [|apply Hu].
    intros _. by exists d, subdirs, s.
  - simpl. intros font. rewrite lookup_empty. by intros [? ?].
Qed.

Lemma main_subdir_commute (dir_name : str) (x y : Path)
    (font_data reg : gmap str (gmap str str)) :
  (is_dir x = Val true → is_dir y = Val true → name x ≠ name y) →
  for_each (main_subdir BeautifulSoup console_print dir_name) [x; y] font_data = Val reg →
  for_each (main_subdir BeautifulSoup console_print dir_name) [y; x] font_data = Val reg.
Proof.
  intros Hne (s1 & Hx & (s2 & Hy & [= <-])%for_each_cons_Val)%for_each_cons_Val.
  simpl.
  destruct (main_subdir_Val _ _ _ _ _ _ Hx)
    as [[Hxd ->]|(Hxd & nx & dnx & lx & _ & _ & _ & Hbx)].
  - rewrite Hy, bind_Val. by rewrite main_subdir_file.
  - rewrite Hbx in Hx. injection Hx as <-.
    destruct (main_subdir_Val _ _ _ _ _ _ Hy)
      as [[Hyd ->]|(Hyd & ny & dny & ly & _ & _ & _ & Hby)].
    + rewrite main_subdir_file by done. by rewrite bind_Val, Hbx.
    + rewrite Hby in Hy. injection Hy as <-.
      rewrite Hby, bind_Val, Hbx, bind_Val. f_equal.
      apply insert_insert_ne. by apply Hne.
Qed.

(** X11: the registry does not depend on the order in which a category is
    listed. When the directories of a listing have distinct names and the
    loop over the listing returns, the loop over any reordering of the
    listing returns the same registry. *)
Theorem listing_order_irrelevant (dir_name : str) (subdirs subdirs' : list Path)
    (font_data reg : gmap str (gmap str str)) :
  subdirs ≡ₚ subdirs' →
  NoDup (name <$> filter (λ s, is_dir s = Val true) subdirs) →
  for_each (main_subdir BeautifulSoup console_print dir_name) subdirs font_data = Val reg →
  for_each (main_subdir BeautifulSoup console_print dir_name) subdirs' font_data = Val reg.
Proof.
  intros Hperm. revert font_data reg.
  induction Hperm as [|x l l' Hperm IH|x y l|l l' l'' Hperm1 IH1 Hperm2 IH2];
    intros font_data reg Hnodup Hrun.
  - done.
  - apply for_each_cons_Val in Hrun as (s1 & Hx & Hrun).
    simpl. rewrite Hx, bind_Val. apply IH; [|done].
    destruct (decide (is_dir x = Val true)) as [Hd|Hd].
    + rewrite filter_cons_True in Hnodup by done.
      rewrite fmap_cons in Hnodup. by apply NoDup_cons in Hnodup as [_ ?].
    + by rewrite filter_cons_False in Hnodup by done.
  - change (y :: x :: l) with ([y; x] ++ l) in Hrun.
    change (x :: y :: l) with ([x; y] ++ l).
    rewrite for_each_app in Hrun. rewrite for_each_app.
    apply bind_Val_inv in Hrun as (s2 & Hyx & Hrun).
    rewrite (main_subdir_commute dir_name y x font_data s2); [by rewrite bind_Val| |done].
    intros Hyd Hxd Heq.
    rewrite !filter_cons_True, !fmap_cons in Hnodup by done.
    apply NoDup_cons in Hnodup as [Hnotin _]. apply Hnotin. rewrite Heq. left.
  - apply IH2; [by rewrite <-Hperm1|]. by apply IH1.
Qed.


End RegistryContents.

(* ===================================================================== *)
(** ** The further properties on the sample trees *)
(* ===================================================================== *)

Module MoreChecks.
Import TreeFS MoreSamples.

Lemma requested_names_colon_free :
  ∀ e, e ∈ [lit "name"; lit "display_name"] → colon ∉ e.
Proof.
  apply Forall_forall.
  apply (bool_decide_unpack (Forall (λ e : str, colon ∉ e)
                               [lit "name"; lit "display_name"])).
  vm_compute. exact I.
Defined.

Lemma requested_names_not_indented :
  ∀ e c', e ∈ [lit "name"; lit "display_name"] → head e = Some c' →
          isspace c' = false.
Proof.
  intros e c' He Hhead.
  apply elem_of_cons in He as [->|He].
  { vm_compute in Hhead. injection Hhead as <-. reflexivity. }
  apply list_elem_of_singleton in He as ->.
  vm_compute in Hhead. injection Hhead as <-. reflexivity.
Defined.

Lemma extract_github_link_raises_iff_witness :
  @extract_github_link undecodable_fs Sample.parser (Sample.description_of ofl_bad)
    = Raise UnicodeDecodeError ∧
  @extract_github_link rejected_fs Sample.parser (Sample.description_of ofl_bad)
    = Raise ParserRejectedMarkup.
Proof.
  split.
  - apply (@extract_github_link_raises_iff undecodable_fs Sample.parser).
    left. vm_compute. reflexivity.
  - apply (@extract_github_link_raises_iff rejected_fs Sample.parser).
    right. exists (lit "<p>x</p><![x]>"). split; vm_compute; reflexivity.
Defined.

Lemma github_link_recorded_witness :
  contains (lit "github.com") (lit "https://github.com/org/repo") ∧
  font_entry [] [] (lit "https://github.com/org/repo") !! lit "link"
    = Some (lit "https://github.com/org/repo") ∧
  @main_subdir Sample.fs Sample.parser Sample.console (lit "ofl") Sample.ofl_baz ∅ =
    Val (<[lit "baz" := font_entry [] [] (lit "https://github.com/org/repo")]> ∅).
Proof.
  destruct (@github_link_recorded Sample.fs Sample.parser Sample.console
              (lit "ofl") Sample.ofl_baz (Sample.description_of Sample.ofl_baz)
              (lit "https://github.com/org/repo") [] [])
    as (Hin & Hlink & Hrun & _).
  - vm_compute. reflexivity.
  - vm_compute. reflexivity.
  - vm_compute. reflexivity.
  - vm_compute. reflexivity.
  - split_and!; [exact Hin|exact Hlink|].
    apply Hrun. vm_compute. reflexivity.
Defined.

Lemma unmatched_lines_ignored_witness :
  @get_metadata_entries metadata_fs (Sample.metadata_of ofl_full)
    [lit "name"; lit "display_name"] =
  @get_metadata_entries metadata_fs (Sample.metadata_of ofl_short)
    [lit "name"; lit "display_name"].
Proof.
  destruct (@unmatched_lines_ignored metadata_fs (Sample.metadata_of ofl_full)
              [lit "name"; lit "display_name"]) as [Hsame _].
  - vm_compute. reflexivity.
  - apply Hsame.
    + vm_compute. reflexivity.
    + vm_compute. reflexivity.
Defined.

Lemma indented_line_ignored_witness :
  scan_entries (32%N :: lit " " ++ Sample.quoted_line "name" "Roboto Nested")
               [lit "name"; lit "display_name"] ∅
    = (∅, None).
Proof.
  apply (indented_line_ignored [lit "name"; lit "display_name"] ∅ 32%N).
  - vm_compute. reflexivity.
  - exact requested_names_not_indented.
Defined.

Lemma field_result_independent_of_other_fields_witness :
  ∃ vs v,
    @get_metadata_entries Sample.fs (Sample.metadata_of Sample.ofl_foo)
      [lit "name"; lit "display_name"] = Val vs ∧
    @get_metadata_entries Sample.fs (Sample.metadata_of Sample.ofl_foo)
      [lit "display_name"] = Val [v] ∧
    vs !! 1 = Some v.
Proof.
  destruct (@field_result_independent_of_other_fields Sample.fs
              (Sample.metadata_of Sample.ofl_foo) [lit "name"; lit "display_name"] 1
              (lit "display_name"))
    as [(e & Hraise & _)|Hsame].
  - exact requested_names_colon_free.
  - vm_compute. reflexivity.
  - vm_compute in Hraise. discriminate Hraise.
  - exact Hsame.
Defined.

Lemma field_value_of_wrapped_value_witness :
  field_value (lit "name" ++ colon :: [32%N] ++
               ([dquote] ++ lit "Fira: Code" ++ [dquote]) ++ [Sample.newline])
    = Val (lit "Fira: Code").
Proof.
  apply (field_value_of_wrapped_value (lit "name") [32%N] [dquote]
           (lit "Fira: Code") [dquote] [Sample.newline]).
  - apply (bool_decide_unpack (colon ∉ lit "name")). vm_compute. exact I.
  - repeat constructor.
  - repeat constructor.
  - repeat constructor.
  - repeat constructor.
  - intros c Hc. vm_compute in Hc. injection Hc as <-. reflexivity.
  - intros c Hc. vm_compute in Hc. injection Hc as <-. reflexivity.
  - intros Hc. vm_compute in Hc. discriminate Hc.
  - intros Hc. vm_compute in Hc. discriminate Hc.
Defined.

Lemma reader_block_fails_only_with_the_file_witness :
  field_value (lit "fonts {") = Raise IndexError ∧
  (scan_lines (file_of nested_lines (Broken OSError))
              [lit "name"; lit "display_name"] ∅).2 = Some OSError.
Proof.
  destruct (reader_block_fails_only_with_the_file (lit "fonts {")
              (file_of nested_lines (Broken OSError))
              [lit "name"; lit "display_name"] ∅) as (Hiff & _ & _ & Hfile).
  split.
  - apply Hiff. apply (bool_decide_unpack (colon ∉ lit "fonts {")).
    vm_compute. exact I.
  - rewrite Hfile. vm_compute. reflexivity.
Defined.

Lemma every_font_directory_registered_witness :
  is_Some (Sample.registry !! lit "baz").
Proof.
  apply (@every_font_directory_registered Sample.fs Sample.parser Sample.console Sample.registry
           (lit "ofl") ofl_listing Sample.ofl_baz).
  - vm_compute. reflexivity.
  - apply list_elem_of_here.
  - vm_compute. reflexivity.
  - vm_compute. reflexivity.
  - do 3 apply list_elem_of_further. apply list_elem_of_here.
  - vm_compute. reflexivity.
Defined.

Lemma registry_keys_are_font_directories_witness :
  ∃ dir_name subdirs subdir,
    dir_name ∈ DIRS ∧
    @exists_ Sample.fs (@BASE_PATH Sample.fs // dir_name) = Val true ∧
    @iterdir Sample.fs (@BASE_PATH Sample.fs // dir_name) = Val subdirs ∧
    subdir ∈ subdirs ∧ @is_dir Sample.fs subdir = Val true ∧
    @name Sample.fs subdir = lit "bar".
Proof.
  apply (@registry_keys_are_font_directories Sample.fs Sample.parser Sample.console Sample.registry).
  - vm_compute. reflexivity.
  - exists (font_entry [] [] []). vm_compute. reflexivity.
Defined.

Lemma entry_names_from_metadata_witness :
  ∃ name_ display_name entry,
    @get_metadata_entries Sample.fs (Sample.metadata_of Sample.ofl_bar)
      [lit "name"; lit "display_name"] = Val [name_; display_name] ∧
    (<[lit "bar" := font_entry [] [] []]> ∅ : gmap str (gmap str str)) !! lit "bar"
      = Some entry ∧
    entry !! lit "name" = Some name_ ∧
    entry !! lit "display_name" = Some display_name ∧
    (@exists_ Sample.fs (Sample.metadata_of Sample.ofl_bar) = Val false →
     name_ = [] ∧ display_name = []).
Proof.
  apply (@entry_names_from_metadata Sample.fs Sample.parser Sample.console (lit "ofl")
           Sample.ofl_bar ∅).
  - vm_compute. reflexivity.
  - vm_compute. reflexivity.
Defined.

Lemma listing_order_irrelevant_witness :
  for_each (@main_subdir Sample.fs Sample.parser Sample.console (lit "ofl")) (rev ofl_listing) ∅
    = Val ofl_registry.
Proof.
  apply (@listing_order_irrelevant Sample.fs Sample.parser Sample.console (lit "ofl") ofl_listing).
  - apply Permutation_rev.
  - apply (bool_decide_unpack
             (NoDup (@name Sample.fs <$>
                     filter (λ s, @is_dir Sample.fs s = Val true) ofl_listing))).
    vm_compute. exact I.
  - vm_compute. reflexivity.
Defined.


Lemma unreadable_description_aborts_witness :
  @main undecodable_fs Sample.parser Sample.console = Raise UnicodeDecodeError.
Proof.
  apply (@unreadable_description_aborts undecodable_fs Sample.parser Sample.console
           [] [lit "apache"; lit "ufl"] (lit "ofl") [ofl_ok] [] ofl_bad
           (Sample.description_of ofl_bad) ∅ {[lit "ok" := font_entry [] [] []]}).
  - vm_compute. reflexivity.
  - vm_compute. reflexivity.
  - vm_compute. reflexivity.
  - vm_compute. reflexivity.
  - vm_compute. reflexivity.
  - vm_compute. reflexivity.
  - vm_compute. reflexivity.
  - vm_compute. reflexivity.
Defined.

Lemma unlistable_category_aborts_witness :
  @main file_category_fs Sample.parser Sample.console = Raise OSError.
Proof.
  apply (@unlistable_category_aborts file_category_fs Sample.parser Sample.console
           [] [lit "apache"; lit "ufl"] (lit "ofl") ∅).
  - vm_compute. reflexivity.
  - vm_compute. reflexivity.
  - vm_compute. reflexivity.
  - vm_compute. reflexivity.
Defined.


Lemma progress_line_failure_aborts_witness :
  @main markup_fs Sample.parser Sample.console = Raise MarkupError.
Proof.
  apply (@progress_line_failure_aborts markup_fs Sample.parser Sample.console
           [] [lit "apache"; lit "ufl"] (lit "ofl") [] [] Sample.ofl_foo ∅ ∅
           [] (lit "Foo [/bar]") []).
  - vm_compute. reflexivity.
  - vm_compute. reflexivity.
  - vm_compute. reflexivity.
  - vm_compute. reflexivity.
  - vm_compute. reflexivity.
  - vm_compute. reflexivity.
  - vm_compute. reflexivity.
  - vm_compute. reflexivity.
  - vm_compute. reflexivity.
Defined.

End MoreChecks.
